(** * Linear motion core of the fishfood firmware (src/motion/linear_axis.c)

    A shallow embedding of the trapezoidal profiler, the cooperative step
    loop and the two homing routines, together with the properties the
    specification states about them.

    Integers are the C integers of the source: an [int32_t] is a [Z] kept in
    range by [wrap32] after every operation that can leave it.  Floats are
    IEEE-754 binary32 values, computed with the operations of
    [Floats.SpecFloat] at precision 24 and maximal exponent 128.  A cast to
    [int64_t] that C leaves undefined yields a value chosen by the
    environment, so that what is proved holds on every platform. *)

From Stdlib Require Import ZArith List Bool Lia.
From Stdlib Require Import Floats.SpecFloat.
Import ListNotations.

Local Open Scope Z_scope.

(** ** Machine integers *)

Module Int.

Definition INT32_MIN : Z := -2147483648.
Definition INT32_MAX : Z := 2147483647.
Definition INT64_MIN : Z := -9223372036854775808.
Definition INT64_MAX : Z := 9223372036854775807.

(** Two's complement reduction to [bits] bits. *)
Definition wrap (bits : Z) (z : Z) : Z :=
  (z + 2 ^ (bits - 1)) mod 2 ^ bits - 2 ^ (bits - 1).

Definition wrap8 : Z -> Z := wrap 8.
Definition wrap32 : Z -> Z := wrap 32.
Definition wrap64 : Z -> Z := wrap 64.

(** Clamp into a closed interval; used where a float to integer
    conversion leaves the range of the integer type. *)
Definition saturate (lo hi z : Z) : Z := Z.max lo (Z.min hi z).

(** [abs] of <stdlib.h> on a 32-bit [int]: the magnitude, reduced to 32
    bits, so that [abs INT32_MIN = INT32_MIN]. *)
Definition abs (z : Z) : Z := wrap32 (Z.abs z).

End Int.

(** ** binary32 arithmetic *)

Module F32.

Definition prec : Z := 24.
Definition emax : Z := 128.

Definition float : Type := spec_float.

Definition mul : float -> float -> float := SFmul prec emax.
Definition div : float -> float -> float := SFdiv prec emax.
Definition sub : float -> float -> float := SFsub prec emax.
Definition sqrtf : float -> float := SFsqrt prec emax.
Definition neg : float -> float := SFopp.

(** [x > y] of C: false as soon as one side is a NaN. *)
Definition gt (x y : float) : bool := SFltb y x.

(** Conversion of an integer to [float], to nearest, ties to even. *)
Definition of_Z (n : Z) : float := binary_normalize prec emax n 0 false.

Definition zero : float := S754_zero false.
Definition one : float := of_Z 1.
Definition two : float := of_Z 2.
Definition five : float := of_Z 5.
Definition half : float := div one two.
(** The literal [0.001f] is the binary32 number nearest to 1/1000. *)
Definition milli : float := div one (of_Z 1000).
Definition million : float := of_Z 1000000.

Definition valid (x : float) : bool := valid_binary prec emax x.

(** [ceilf]: the least integral value not below [x]; a negative value
    above -1 yields the negative zero. *)
Definition ceilf (x : float) : float :=
  match x with
  | S754_finite s m e =>
      if 0 <=? e then x
      else
        let d := 2 ^ (- e) in
        let q := Z.pos m / d in
        let r := Z.pos m mod d in
        if s then
          if q =? 0 then S754_zero true else of_Z (- q)
        else of_Z (if r =? 0 then q else q + 1)
  | _ => x
  end.

(** The integer nearest to a finite [x], halfway cases away from zero. *)
Definition round_half_away (x : float) : option Z :=
  match x with
  | S754_zero _ => Some 0
  | S754_finite s m e =>
      let mag :=
        if 0 <=? e then Z.pos m * 2 ^ e
        else (2 * Z.pos m + 2 ^ (- e)) / 2 ^ (- e + 1) in
      Some (if s then - mag else mag)
  | _ => None
  end.

(** The integer part of a finite [x] (rounding toward zero). *)
Definition truncate (x : float) : option Z :=
  match x with
  | S754_zero _ => Some 0
  | S754_finite s m e =>
      let mag :=
        if 0 <=? e then Z.pos m * 2 ^ e else Z.pos m / 2 ^ (- e) in
      Some (if s then - mag else mag)
  | _ => None
  end.

(** What [lroundf] returns where C leaves its result unspecified (the
    value does not fit, or is not a number): the soft-float routines of
    the target saturate and map a NaN to 0. *)
Definition out_of_range (lo hi : Z) (x : float) : Z :=
  match x with
  | S754_infinity true => lo
  | S754_infinity false => hi
  | _ => 0
  end.

(** [lroundf]; [long] has 32 bits on the target. *)
Definition lroundf (x : float) : Z :=
  match round_half_away x with
  | Some z => Int.saturate Int.INT32_MIN Int.INT32_MAX z
  | None => out_of_range Int.INT32_MIN Int.INT32_MAX x
  end.

(** The cast [(int64_t) x] where C defines it: the integer part of a
    finite [x] that fits.  For a NaN, an infinity or an integer part
    outside [int64_t] the language defines no result. *)
Definition to_int64 (x : float) : option Z :=
  match truncate x with
  | Some z =>
      if (Int.INT64_MIN <=? z) && (z <=? Int.INT64_MAX) then Some z else None
  | None => None
  end.

(** The exact value of a float as a fraction [n / 2^k], for finite [x]. *)
Definition exact (x : float) : option (Z * Z) :=
  match x with
  | S754_zero _ => Some (0, 1)
  | S754_finite s m e =>
      let n := if s then Z.neg m else Z.pos m in
      Some (if 0 <=? e then (n * 2 ^ e, 1) else (n, 2 ^ (- e)))
  | _ => None
  end.

End F32.

(** ** Data model *)

(** The stepper driver, as far as the motion core uses it.  The driver's
    sources are not part of the motion core; its fields follow the driver
    contract: a signed step counter, a latched direction and the state of
    the stall detector ([Some sensitivity] when enabled). *)
Module Stepper.

Record t : Type := mk {
  total_steps : Z;
  direction : Z;
  stallguard : option Z
}.

Definition set_total_steps (n : Z) (s : t) : t :=
  mk n (direction s) (stallguard s).
Definition set_direction (d : Z) (s : t) : t :=
  mk (total_steps s) d (stallguard s).
Definition set_stallguard (g : option Z) (s : t) : t :=
  mk (total_steps s) (direction s) g.

(** Modelled from the spec: the driver's pulse routine is not under src/.
    One pulse advances [total_steps] by exactly [direction]. *)
Definition pulse (s : t) : t :=
  set_total_steps (total_steps s + direction s) s.

End Stepper.

(** [struct LinearAxisMovement]. *)
Record LinearAxisMovement : Type := mkMovement {
  direction : Z;
  accel_step_count : Z;
  decel_step_count : Z;
  coast_step_count : Z;
  total_step_count : Z;
  steps_taken : Z
}.

(** The value of [(struct LinearAxisMovement){}]. *)
Definition zero_plan : LinearAxisMovement := mkMovement 0 0 0 0 0 0.

(** [struct LinearAxis]; [stepper2] is [None] for the NULL pointer.  The
    structure is declared in linear_axis.h, which is not under src/: the
    fields are those the source reads and writes, with the types of the
    data model (the step interval is a signed 64-bit count of
    microseconds, the deadline an absolute time in microseconds). *)
Record LinearAxis : Type := mkAxis {
  name : Z;
  stepper : Stepper.t;
  stepper2 : option Stepper.t;
  steps_per_mm : F32.float;
  velocity_mm_s : F32.float;
  acceleration_mm_s2 : F32.float;
  homing_direction : Z;
  homing_distance_mm : F32.float;
  homing_bounce_mm : F32.float;
  homing_velocity_mm_s : F32.float;
  homing_acceleration_mm_s2 : F32.float;
  homing_sensitivity : Z;
  endstop : Z;
  _current_move : LinearAxisMovement;
  _step_interval : Z;
  _next_step_at : Z
}.

Definition set_stepper (s : Stepper.t) (m : LinearAxis) : LinearAxis :=
  mkAxis (name m) s (stepper2 m) (steps_per_mm m) (velocity_mm_s m)
    (acceleration_mm_s2 m) (homing_direction m) (homing_distance_mm m)
    (homing_bounce_mm m) (homing_velocity_mm_s m)
    (homing_acceleration_mm_s2 m) (homing_sensitivity m) (endstop m)
    (_current_move m) (_step_interval m) (_next_step_at m).

Definition set_stepper2 (s : option Stepper.t) (m : LinearAxis) : LinearAxis :=
  mkAxis (name m) (stepper m) s (steps_per_mm m) (velocity_mm_s m)
    (acceleration_mm_s2 m) (homing_direction m) (homing_distance_mm m)
    (homing_bounce_mm m) (homing_velocity_mm_s m)
    (homing_acceleration_mm_s2 m) (homing_sensitivity m) (endstop m)
    (_current_move m) (_step_interval m) (_next_step_at m).

Definition set_velocity_mm_s (v : F32.float) (m : LinearAxis) : LinearAxis :=
  mkAxis (name m) (stepper m) (stepper2 m) (steps_per_mm m) v
    (acceleration_mm_s2 m) (homing_direction m) (homing_distance_mm m)
    (homing_bounce_mm m) (homing_velocity_mm_s m)
    (homing_acceleration_mm_s2 m) (homing_sensitivity m) (endstop m)
    (_current_move m) (_step_interval m) (_next_step_at m).

Definition set_acceleration_mm_s2 (a : F32.float) (m : LinearAxis) : LinearAxis :=
  mkAxis (name m) (stepper m) (stepper2 m) (steps_per_mm m) (velocity_mm_s m)
    a (homing_direction m) (homing_distance_mm m)
    (homing_bounce_mm m) (homing_velocity_mm_s m)
    (homing_acceleration_mm_s2 m) (homing_sensitivity m) (endstop m)
    (_current_move m) (_step_interval m) (_next_step_at m).

Definition set_current_move (mv : LinearAxisMovement) (m : LinearAxis) : LinearAxis :=
  mkAxis (name m) (stepper m) (stepper2 m) (steps_per_mm m) (velocity_mm_s m)
    (acceleration_mm_s2 m) (homing_direction m) (homing_distance_mm m)
    (homing_bounce_mm m) (homing_velocity_mm_s m)
    (homing_acceleration_mm_s2 m) (homing_sensitivity m) (endstop m)
    mv (_step_interval m) (_next_step_at m).

Definition set_step_interval (i : Z) (m : LinearAxis) : LinearAxis :=
  mkAxis (name m) (stepper m) (stepper2 m) (steps_per_mm m) (velocity_mm_s m)
    (acceleration_mm_s2 m) (homing_direction m) (homing_distance_mm m)
    (homing_bounce_mm m) (homing_velocity_mm_s m)
    (homing_acceleration_mm_s2 m) (homing_sensitivity m) (endstop m)
    (_current_move m) i (_next_step_at m).

Definition set_next_step_at (t : Z) (m : LinearAxis) : LinearAxis :=
  mkAxis (name m) (stepper m) (stepper2 m) (steps_per_mm m) (velocity_mm_s m)
    (acceleration_mm_s2 m) (homing_direction m) (homing_distance_mm m)
    (homing_bounce_mm m) (homing_velocity_mm_s m)
    (homing_acceleration_mm_s2 m) (homing_sensitivity m) (endstop m)
    (_current_move m) (_step_interval m) t.

Definition set_steps_taken (n : Z) (mv : LinearAxisMovement) : LinearAxisMovement :=
  mkMovement (direction mv) (accel_step_count mv) (decel_step_count mv)
    (coast_step_count mv) (total_step_count mv) n.

(** ** Initialisation *)

(** [LinearAxis_init]: the name and the primary driver are installed, the
    kinematics, the stall sensitivity and the endstop get their defaults
    and the plan is zeroed; the fields the source does not assign keep
    what [m] held. *)
Definition LinearAxis_init (m : LinearAxis) (name : Z) (stepper : Stepper.t)
  : LinearAxis :=
  mkAxis name stepper (stepper2 m) (steps_per_mm m) (F32.of_Z 100)
    (F32.of_Z 1000) (homing_direction m) (homing_distance_mm m)
    (homing_bounce_mm m) (homing_velocity_mm_s m)
    (homing_acceleration_mm_s2 m) 100 0 zero_plan (_step_interval m)
    (_next_step_at m).

(** ** The profiler *)

(** The integer step target of a destination:
    [(int32_t)(lroundf(ceilf(mm * m->steps_per_mm)))]. *)
Definition mm_to_steps (m : LinearAxis) (mm : F32.float) : Z :=
  Int.wrap32 (F32.lroundf (F32.ceilf (F32.mul mm (steps_per_mm m)))).

(** The ideal ramp length in steps: the first value the source gives to
    [accel_step_count]. *)
Definition ramp_steps (m : LinearAxis) : Z :=
  let accel_time_s := F32.div (velocity_mm_s m) (acceleration_mm_s2 m) in
  let accel_distance_mm :=
    F32.mul (F32.mul F32.half accel_time_s) (velocity_mm_s m) in
  Int.wrap32 (F32.lroundf (F32.mul accel_distance_mm (steps_per_mm m))).

Definition LinearAxis_calculate_move (m : LinearAxis) (dest_mm : F32.float)
  : LinearAxisMovement :=
  let dest_steps := mm_to_steps m dest_mm in
  let delta_steps := Int.wrap32 (dest_steps - Stepper.total_steps (stepper m)) in
  let dir := if delta_steps <? 0 then -1 else 1 in
  let total_step_count := Int.abs delta_steps in
  let accel_step_count := ramp_steps m in
  let decel_step_count := accel_step_count in
  let coast_step_count :=
    Int.wrap32 (Int.wrap32 (total_step_count - accel_step_count)
                - decel_step_count) in
  if coast_step_count <=? 0 then
    let accel_step_count := Z.quot total_step_count 2 in
    let decel_step_count := Int.wrap32 (total_step_count - accel_step_count) in
    mkMovement dir accel_step_count decel_step_count 0 total_step_count 0
  else
    mkMovement dir accel_step_count decel_step_count coast_step_count
      total_step_count 0.

(** ** Position in millimetres *)

Definition LinearAxis_get_position_mm (m : LinearAxis) : F32.float :=
  F32.mul (F32.of_Z (Stepper.total_steps (stepper m)))
          (F32.div F32.one (steps_per_mm m)).

Definition LinearAxis_set_position_mm (m : LinearAxis) (mm : F32.float)
  : LinearAxis :=
  set_stepper (Stepper.set_total_steps (mm_to_steps m mm) (stepper m)) m.

(** ** Interval calculation *)

(** The instantaneous velocity at the current step of the plan. *)
Definition inst_velocity (m : LinearAxis) : F32.float :=
  let mv := _current_move m in
  let mm_per_step := F32.div F32.one (steps_per_mm m) in
  let distance := F32.mul (F32.of_Z (steps_taken mv)) mm_per_step in
  if steps_taken mv <? accel_step_count mv then
    F32.sqrtf (F32.mul (F32.mul F32.two distance) (acceleration_mm_s2 m))
  else if steps_taken mv
          <? Int.wrap32 (accel_step_count mv + coast_step_count mv) then
    velocity_mm_s m
  else
    let total_distance := F32.mul (F32.of_Z (total_step_count mv)) mm_per_step in
    F32.sqrtf (F32.mul (F32.mul F32.two (F32.sub total_distance distance))
                       (acceleration_mm_s2 m)).

(** The step rate the source divides by when the velocity is positive. *)
Definition steps_per_s (m : LinearAxis) : F32.float :=
  F32.div (inst_velocity m) (F32.div F32.one (steps_per_mm m)).

Definition s_per_step (m : LinearAxis) : F32.float :=
  if F32.gt (inst_velocity m) F32.zero then F32.div F32.one (steps_per_s m)
  else F32.milli.

(** ** The machine around the axis *)

(** What the core does to its collaborators, newest event first. *)
Inductive Event : Type :=
| EvPulse (both : bool)              (* Stepper_step, or Stepper_step_two *)
| EvStallguard (on : option Z)       (* enable at a sensitivity, or disable *)
| EvStalled (flag : bool)            (* one call of Stepper_stalled *)
| EvEndstopSetup (pin : Z)           (* gpio_init, gpio_set_dir, gpio_pull_up *)
| EvEndstop (pin : Z) (level : Z).   (* one call of gpio_get *)

(** The environment answers the reads of the core: the k-th reading of the
    monotonic microsecond clock, the k-th poll of the driver's stall flag
    and the k-th sample of an input pin.  It also stands for the platform
    where the language leaves a result open: [undefined_cast x] is what an
    [(int64_t)] cast of [x] leaves behind when C does not define it (the
    soft-float routines of a microcontroller saturate, an x86 host stores
    INT64_MIN); nothing in the source fixes it. *)
Record Env : Type := mkEnv {
  clock : nat -> Z;
  stall_flag : nat -> bool;
  pin_level : nat -> Z -> Z;
  undefined_cast : F32.float -> Z
}.

(** The axis together with the number of reads made so far and the trace
    of events. *)
Record World : Type := mkWorld {
  axis : LinearAxis;
  clock_reads : nat;
  stall_polls : nat;
  pin_reads : nat;
  trace : list Event
}.

Definition with_axis (f : LinearAxis -> LinearAxis) (w : World) : World :=
  mkWorld (f (axis w)) (clock_reads w) (stall_polls w) (pin_reads w) (trace w).

Definition emit (e : Event) (w : World) : World :=
  mkWorld (axis w) (clock_reads w) (stall_polls w) (pin_reads w) (e :: trace w).

(** Modelled from the spec: linear_axis.h, which defines these three
    helpers, is not under src/.  [is_moving] is true iff
    [total_step_count > 0]; [stop] replaces the movement with the zero plan
    and does not change the position; [reset_position] re-zeroes the step
    counter. *)
Definition LinearAxis_is_moving (m : LinearAxis) : bool :=
  total_step_count (_current_move m) >? 0.

Definition LinearAxis_stop (m : LinearAxis) : LinearAxis :=
  set_current_move zero_plan m.

Definition LinearAxis_reset_position (m : LinearAxis) : LinearAxis :=
  set_stepper (Stepper.set_total_steps 0 (stepper m)) m.

(** Modelled from the spec: the driver operations are not under src/.
    [Stepper_step] pulses the primary driver, [Stepper_step_two] pulses both
    drivers on the same tick; the stall detector is switched on at a
    sensitivity or off. *)
Definition Stepper_step (w : World) : World :=
  emit (EvPulse false)
    (with_axis (fun m => set_stepper (Stepper.pulse (stepper m)) m) w).

Definition Stepper_step_two (w : World) : World :=
  emit (EvPulse true)
    (with_axis (fun m => set_stepper2 (option_map Stepper.pulse (stepper2 m))
                           (set_stepper (Stepper.pulse (stepper m)) m)) w).

Definition Stepper_enable_stallguard (sensitivity : Z) (w : World) : World :=
  emit (EvStallguard (Some sensitivity))
    (with_axis (fun m => set_stepper
                  (Stepper.set_stallguard (Some sensitivity) (stepper m)) m) w).

Definition Stepper_disable_stallguard (w : World) : World :=
  emit (EvStallguard None)
    (with_axis (fun m => set_stepper
                  (Stepper.set_stallguard None (stepper m)) m) w).

(** [n] rounds of a loop body, first round first. *)
Fixpoint iterate {A : Type} (f : A -> A) (n : nat) (x : A) : A :=
  match n with
  | O => x
  | S n => iterate f n (f x)
  end.

Section Machine.

Variable env : Env.

(** The cast [(int64_t) x] as it runs: the defined result, or else some
    64-bit value chosen by the platform. *)
Definition cast_int64 (x : F32.float) : Z :=
  match F32.to_int64 x with
  | Some z => z
  | None => Int.wrap64 (undefined_cast env x)
  end.

Definition LinearAxis_calculate_step_interval (m : LinearAxis) : LinearAxis :=
  let step_time_us := cast_int64 (F32.mul (s_per_step m) F32.million) in
  let step_time_us := if step_time_us >? 5000 then 5000 else step_time_us in
  set_step_interval step_time_us m.

(** Modelled from the spec: the clock contract (now, now + µs, signed
    difference in µs); the SDK functions are not under src/. *)
Definition get_absolute_time (w : World) : Z * World :=
  (clock env (clock_reads w),
   mkWorld (axis w) (S (clock_reads w)) (stall_polls w) (pin_reads w)
     (trace w)).

Definition make_timeout_time_us (us : Z) (w : World) : Z * World :=
  let (now, w) := get_absolute_time w in (now + us, w).

Definition absolute_time_diff_us (from to : Z) : Z := to - from.

Definition Stepper_stalled (w : World) : bool * World :=
  let flag := stall_flag env (stall_polls w) in
  (flag,
   mkWorld (axis w) (clock_reads w) (S (stall_polls w)) (pin_reads w)
     (EvStalled flag :: trace w)).

Definition gpio_get (pin : Z) (w : World) : Z * World :=
  let level := pin_level env (pin_reads w) pin in
  (level,
   mkWorld (axis w) (clock_reads w) (stall_polls w) (S (pin_reads w))
     (EvEndstop pin level :: trace w)).

(** *** The step loop *)

Definition LinearAxis_start_move (w : World) (move : LinearAxisMovement)
  : World :=
  let latch := Stepper.set_direction (Int.wrap8 (direction move)) in
  let w := with_axis (fun m => set_stepper (latch (stepper m)) m) w in
  let w := with_axis (fun m => set_stepper2 (option_map latch (stepper2 m)) m) w in
  let w := with_axis (set_current_move move) w in
  let w := with_axis (set_step_interval 100) w in
  let (t, w) := make_timeout_time_us (_step_interval (axis w)) w in
  with_axis (set_next_step_at t) w.

Definition LinearAxis_direct_step (w : World) : World :=
  if total_step_count (_current_move (axis w)) =? 0 then w
  else
    let w := match stepper2 (axis w) with
             | Some _ => Stepper_step_two w
             | None => Stepper_step w
             end in
    let w := with_axis (fun m =>
               set_current_move
                 (set_steps_taken
                    (Int.wrap32 (steps_taken (_current_move m) + 1))
                    (_current_move m)) m) w in
    if steps_taken (_current_move (axis w))
       =? total_step_count (_current_move (axis w))
    then with_axis (set_current_move zero_plan) w
    else w.

Definition LinearAxis_timed_step (w : World) : bool * World :=
  let (now, w) := get_absolute_time w in
  if absolute_time_diff_us now (_next_step_at (axis w)) >? 0 then (false, w)
  else
    let w := LinearAxis_direct_step w in
    let w := with_axis LinearAxis_calculate_step_interval w in
    let (t, w) := make_timeout_time_us (_step_interval (axis w)) w in
    (true, with_axis (set_next_step_at t) w).

(** [n] successive calls of [LinearAxis_timed_step]. *)
Definition timed_steps (n : nat) (w : World) : World :=
  iterate (fun w => snd (LinearAxis_timed_step w)) n w.

(** [n] successive calls of [LinearAxis_direct_step]. *)
Definition direct_steps (n : nat) (w : World) : World :=
  iterate LinearAxis_direct_step n w.

(** [while (LinearAxis_is_moving(m)) { LinearAxis_timed_step(m); }],
    given up after [fuel] iterations. *)
Fixpoint run_move (fuel : nat) (w : World) : option World :=
  if LinearAxis_is_moving (axis w) then
    match fuel with
    | O => None
    | S fuel => run_move fuel (snd (LinearAxis_timed_step w))
    end
  else Some w.

(** *** Waiting for a move *)

Definition make_timeout_time_ms (ms : Z) (w : World) : Z * World :=
  let (now, w) := get_absolute_time w in (now + ms * 1000, w).

(** The state of the loop of [LinearAxis_wait_for_move]; the progress
    reports themselves are not modelled, the clock readings that schedule
    them are. *)
Record WaitLoop : Type := mkWait {
  wait_world : World;
  report_time : Z
}.

Definition wait_body (s : WaitLoop) : WaitLoop :=
  let w := snd (LinearAxis_timed_step (wait_world s)) in
  let (now, w) := get_absolute_time w in
  if absolute_time_diff_us now (report_time s) <=? 0 then
    let (t, w) := make_timeout_time_ms 1000 w in mkWait w t
  else mkWait w (report_time s).

Fixpoint wait_loop (fuel : nat) (s : WaitLoop) : option World :=
  if LinearAxis_is_moving (axis (wait_world s)) then
    match fuel with
    | O => None
    | S fuel => wait_loop fuel (wait_body s)
    end
  else Some (wait_world s).

Definition LinearAxis_wait_for_move (fuel : nat) (w : World) : option World :=
  if negb (LinearAxis_is_moving (axis w)) then Some w
  else
    let (t, w) := make_timeout_time_ms 1000 w in
    wait_loop fuel (mkWait w t).

(** *** Sensorless homing *)

(** The state of the loop of [stallguard_seek]. *)
Record SeekLoop : Type := mkSeek {
  seek_world : World;
  check_for_stall : bool
}.

(** One iteration of the [while (true)] loop; the boolean tells whether
    the iteration left the loop through [break]. *)
Definition stallguard_seek_body (s : SeekLoop) : SeekLoop * bool :=
  let w := snd (LinearAxis_timed_step (seek_world s)) in
  let '(w, check) :=
    if steps_taken (_current_move (axis w))
       =? accel_step_count (_current_move (axis w))
    then (Stepper_enable_stallguard (homing_sensitivity (axis w)) w, true)
    else (w, check_for_stall s) in
  if check then
    let (stalled, w) := Stepper_stalled w in
    (mkSeek w check, stalled)
  else (mkSeek w check, false).

Fixpoint stallguard_seek_loop (fuel : nat) (s : SeekLoop) : option World :=
  match fuel with
  | O => None
  | S fuel =>
      let (s, exit) := stallguard_seek_body s in
      if exit then Some (seek_world s) else stallguard_seek_loop fuel s
  end.

(** The loop state on entry: stall detection off, the move installed. *)
Definition stallguard_seek_entry (w : World) (dist_mm : F32.float)
  : SeekLoop :=
  let w := Stepper_disable_stallguard w in
  let w := LinearAxis_start_move w (LinearAxis_calculate_move (axis w) dist_mm) in
  mkSeek w false.

Definition stallguard_seek (fuel : nat) (w : World) (dist_mm : F32.float)
  : option World :=
  match stallguard_seek_loop fuel (stallguard_seek_entry w dist_mm) with
  | None => None
  | Some w =>
      let w := with_axis LinearAxis_stop w in
      let w := with_axis LinearAxis_reset_position w in
      Some (Stepper_disable_stallguard w)
  end.

(** [m->homing_direction * m->homing_distance_mm] and the like: the
    integer direction is converted to [float] first. *)
Definition homing_travel (m : LinearAxis) (mm : F32.float) : F32.float :=
  F32.mul (F32.of_Z (homing_direction m)) mm.

(** The state in which both homing routines enter their initial seek:
    homing kinematics substituted, the step counter zeroed. *)
Definition homing_entry (m : LinearAxis) : LinearAxis :=
  let m := set_velocity_mm_s (homing_velocity_mm_s m) m in
  let m := set_acceleration_mm_s2 (homing_acceleration_mm_s2 m) m in
  set_stepper (Stepper.set_total_steps 0 (stepper m)) m.

Definition LinearAxis_sensorless_home (fuel : nat) (w : World)
  : option World :=
  let old_velocity := velocity_mm_s (axis w) in
  let old_acceleration := acceleration_mm_s2 (axis w) in
  let w := with_axis homing_entry w in
  match stallguard_seek fuel w
          (homing_travel (axis w) (homing_distance_mm (axis w))) with
  | None => None
  | Some w =>
    let w := LinearAxis_start_move w
               (LinearAxis_calculate_move (axis w)
                  (F32.neg (homing_travel (axis w) (homing_bounce_mm (axis w))))) in
    match run_move fuel w with
    | None => None
    | Some w =>
      let w := with_axis (fun m =>
                 set_velocity_mm_s (homing_velocity_mm_s m) m) w in
      let w := with_axis (fun m =>
                 set_acceleration_mm_s2 (homing_acceleration_mm_s2 m) m) w in
      match stallguard_seek fuel w
              (F32.mul (homing_travel (axis w) (homing_bounce_mm (axis w)))
                       F32.two) with
      | None => None
      | Some w =>
        let w := with_axis (set_velocity_mm_s old_velocity) w in
        Some (with_axis (set_acceleration_mm_s2 old_acceleration) w)
      end
    end
  end.

(** *** Endstop homing *)

(** [while (gpio_get(m->endstop) != 1) { LinearAxis_timed_step(m); }]. *)
Fixpoint endstop_seek_loop (fuel : nat) (w : World) : option World :=
  match fuel with
  | O => None
  | S fuel =>
      let (level, w) := gpio_get (endstop (axis w)) w in
      if level =? 1 then Some w
      else endstop_seek_loop fuel (snd (LinearAxis_timed_step w))
  end.

Definition endstop_seek (fuel : nat) (w : World) (dist_mm : F32.float)
  : option World :=
  let w := LinearAxis_start_move w (LinearAxis_calculate_move (axis w) dist_mm) in
  match endstop_seek_loop fuel w with
  | None => None
  | Some w =>
      let w := with_axis LinearAxis_stop w in
      Some (with_axis LinearAxis_reset_position w)
  end.

Definition LinearAxis_endstop_home (fuel : nat) (w : World) : option World :=
  let w := emit (EvEndstopSetup (endstop (axis w))) w in
  let old_velocity := velocity_mm_s (axis w) in
  let old_acceleration := acceleration_mm_s2 (axis w) in
  let w := with_axis homing_entry w in
  match endstop_seek fuel w
          (homing_travel (axis w) (homing_distance_mm (axis w))) with
  | None => None
  | Some w =>
    let w := LinearAxis_start_move w
               (LinearAxis_calculate_move (axis w)
                  (F32.neg (homing_travel (axis w) (homing_bounce_mm (axis w))))) in
    match run_move fuel w with
    | None => None
    | Some w =>
      let w := with_axis (fun m =>
                 set_velocity_mm_s
                   (F32.div (homing_velocity_mm_s m) F32.five) m) w in
      let w := with_axis (fun m =>
                 set_acceleration_mm_s2
                   (F32.div (homing_acceleration_mm_s2 m) F32.two) m) w in
      match endstop_seek fuel w
              (F32.mul (homing_travel (axis w) (homing_bounce_mm (axis w)))
                       F32.two) with
      | None => None
      | Some w =>
        let w := with_axis (set_velocity_mm_s old_velocity) w in
        Some (with_axis (set_acceleration_mm_s2 old_acceleration) w)
      end
    end
  end.

End Machine.

(** * Vocabulary of the properties *)

(** [x] is a NaN or has the sign bit [b]. *)
Definition has_sign (b : bool) (x : F32.float) : Prop :=
  match x with
  | S754_zero s | S754_infinity s | S754_finite s _ _ => s = b
  | S754_nan => True
  end.

(** The exact difference, in steps, between the destination and the
    current position: what [delta_steps] holds when the subtraction does
    not overflow. *)
Definition step_delta (m : LinearAxis) (dest_mm : F32.float) : Z :=
  mm_to_steps m dest_mm - Stepper.total_steps (stepper m).

(** The world after one reading of the clock. *)
Definition after_read (w : World) : World :=
  mkWorld (axis w) (S (clock_reads w)) (stall_polls w) (pin_reads w) (trace w).

(** The plan after one more step: the counter incremented, or the zero
    plan when that was the last step. *)
Definition plan_after_step (mv : LinearAxisMovement) : LinearAxisMovement :=
  let n := Int.wrap32 (steps_taken mv + 1) in
  if n =? total_step_count mv then zero_plan else set_steps_taken n mv.

(** How far a move has come: the driver's direction is [d]; either [k]
    steps of the plan [mv] have been taken and the counter stands at
    [p0 + d * k], or the move has ended and the counter stands at
    [p0 + d * total]. *)
Definition progress (p0 d : Z) (mv : LinearAxisMovement) (m : LinearAxis)
  : Prop :=
  Stepper.direction (stepper m) = d
  /\ ((exists k, 0 <= k < total_step_count mv
                 /\ _current_move m = set_steps_taken k mv
                 /\ Stepper.total_steps (stepper m) = p0 + d * k)
      \/ (total_step_count (_current_move m) = 0
          /\ Stepper.total_steps (stepper m)
             = p0 + d * total_step_count mv)).

(** What a loop around [LinearAxis_timed_step] moves forward: the plan,
    the step counter and the latched direction of the primary driver. *)
Definition motion (w : World) : LinearAxisMovement * Z * Z :=
  (_current_move (axis w),
   Stepper.total_steps (stepper (axis w)),
   Stepper.direction (stepper (axis w))).

(** The move has ended with the counter at its destination. *)
Definition arrived (p0 d : Z) (mv : LinearAxisMovement) (w : World) : Prop :=
  LinearAxis_is_moving (axis w) = false
  /\ Stepper.total_steps (stepper (axis w)) = p0 + d * total_step_count mv.

(** A plan whose step counter cannot leave the [int32_t] range unnoticed:
    the counter is a non-negative [int32_t] and either nothing is left to
    do, or the counter is below the total, or the total is INT32_MIN (the
    counter then wraps onto it). *)
Definition plan_sane (mv : LinearAxisMovement) : Prop :=
  0 <= steps_taken mv <= Int.INT32_MAX
  /\ total_step_count mv <= Int.INT32_MAX
  /\ (total_step_count mv = 0
      \/ steps_taken mv < total_step_count mv
      \/ total_step_count mv = Int.INT32_MIN).

(** The conditional actions of one iteration, after the tick. *)
Definition arms (w1 : World) : bool :=
  steps_taken (_current_move (axis w1))
  =? accel_step_count (_current_move (axis w1)).

Definition armed_world (w1 : World) : World :=
  if arms w1
  then Stepper_enable_stallguard (homing_sensitivity (axis w1)) w1
  else w1.

(** The invariant of the seek loop. *)
Definition seek_inv (polls0 : nat) (s : SeekLoop) : Prop :=
  let w := seek_world s in
  plan_sane (_current_move (axis w))
  /\ (check_for_stall s = false ->
      Stepper.stallguard (stepper (axis w)) = None
      /\ stall_polls w = polls0)
  /\ (check_for_stall s = true ->
      accel_step_count (_current_move (axis w))
      <= steps_taken (_current_move (axis w))).

(** The cruise velocity and the acceleration in force. *)
Definition kinematics (m : LinearAxis) : F32.float * F32.float :=
  (velocity_mm_s m, acceleration_mm_s2 m).


(** The rest of the configuration. *)
Definition fixed_settings (m : LinearAxis) :=
  (steps_per_mm m,
   (homing_direction m, homing_distance_mm m, homing_bounce_mm m),
   (homing_velocity_mm_s m, homing_acceleration_mm_s2 m,
    homing_sensitivity m, endstop m)).

(** The configuration of an axis: what no step, tick or seek writes. *)
Definition settings (m : LinearAxis) := (fixed_settings m, kinematics m).



(** The number of step pulses in a trace. *)
Definition is_pulse (e : Event) : bool :=
  match e with
  | EvPulse _ => true
  | _ => false
  end.

Definition pulses (t : list Event) : Z :=
  Z.of_nat (length (filter is_pulse t)).

(** The polls of the stall flag numbered from [a] up to, not including,
    [b] all read false. *)
Definition quiet_between (env : Env) (a b : nat) : Prop :=
  forall j, (a <= j < b)%nat -> stall_flag env j = false.

(** How many pulses a run has emitted: while the plan [mv] is in flight,
    as many as steps taken; once it has ended, as many as the plan has
    steps, with the plan replaced by one that has no step left and none
    taken. *)
Definition run_state (pulses0 : Z) (mv : LinearAxisMovement) (w : World)
  : Prop :=
  (exists k, 0 <= k < total_step_count mv
             /\ _current_move (axis w) = set_steps_taken k mv
             /\ pulses (trace w) = pulses0 + k)
  \/ (total_step_count (_current_move (axis w)) = 0
      /\ steps_taken (_current_move (axis w)) = 0
      /\ pulses (trace w) = pulses0 + total_step_count mv).

(** The secondary driver is present, latched to the direction [d] of the
    primary one, and [gap] steps ahead of it. *)
Definition slaved (d gap : Z) (m : LinearAxis) : Prop :=
  Stepper.direction (stepper m) = d
  /\ exists s2, stepper2 m = Some s2
                /\ Stepper.direction s2 = d
                /\ Stepper.total_steps s2 - Stepper.total_steps (stepper m)
                   = gap.

(** What a waiting loop keeps while it runs the plan [mv]: the progress of
    the step counter and the count of the pulses. *)
Definition wait_inv (p0 d pulses0 : Z) (mv : LinearAxisMovement)
           (s : WaitLoop) : Prop :=
  progress p0 d mv (axis (wait_world s))
  /\ run_state pulses0 mv (wait_world s).

Section SeekVocabulary.

Variable env : Env.

(** States the loop of [stallguard_seek] passes through at its head,
    from the state [s0] on entry. *)
Inductive seek_reaches (s0 : SeekLoop) : SeekLoop -> Prop :=
| seek_entry : seek_reaches s0 s0
| seek_round (s s' : SeekLoop) :
    seek_reaches s0 s ->
    stallguard_seek_body env s = (s', false) ->
    seek_reaches s0 s'.

Definition seek_round_of (s : SeekLoop) : SeekLoop :=
  fst (stallguard_seek_body env s).

End SeekVocabulary.

(** * Configurations used in the examples *)

(** An axis at step 0 with 1 step/mm, 100 mm/s and 100 mm/s²: the ideal
    ramp is 50 steps long. *)
Definition slow_axis : LinearAxis :=
  mkAxis 88 (Stepper.mk 0 1 None) None (F32.of_Z 1) (F32.of_Z 100)
    (F32.of_Z 100) (-1) (F32.of_Z 200) (F32.of_Z 5) (F32.of_Z 50)
    (F32.of_Z 500) 100 0 zero_plan 0 0.

(** The axis of the counterexamples: 1 step/mm, 100 mm/s, 1000 mm/s²,
    standing at step [pos]. *)
Definition unit_axis (pos : Z) : LinearAxis :=
  mkAxis 88 (Stepper.mk pos 1 None) None (F32.of_Z 1) (F32.of_Z 100)
    (F32.of_Z 1000) (-1) (F32.of_Z 200) (F32.of_Z 5) (F32.of_Z 50)
    (F32.of_Z 500) 100 0 zero_plan 0 0.

(** An axis with two drivers, standing at step 1000, 80 steps/mm. *)
Definition gantry_axis : LinearAxis :=
  mkAxis 89 (Stepper.mk 1000 1 None) (Some (Stepper.mk 1000 1 None))
    (F32.of_Z 80) (F32.of_Z 100) (F32.of_Z 1000) (-1) (F32.of_Z 200)
    (F32.of_Z 5) (F32.of_Z 50) (F32.of_Z 500) 100 0 zero_plan 0 0.

(** A clock that advances by 10 ms from one reading to the next, a stall
    flag raised on every fourth poll, an endstop that closes at its
    fortieth sample and a platform whose undefined casts saturate. *)
Definition bench_env : Env :=
  mkEnv (fun k => Z.of_nat k * 10000)
        (fun k => Nat.eqb (Nat.modulo k 4) 3)
        (fun k _ => if Nat.ltb k 40 then 0 else 1)
        (F32.out_of_range Int.INT64_MIN Int.INT64_MAX).

Definition world_of (m : LinearAxis) : World := mkWorld m 0 0 0 [].

(** The axis of the specification's scenarios: 80 steps/mm, 100 mm/s,
    1000 mm/s², starting at step [pos]. *)
Definition scenario_axis (pos : Z) : LinearAxis :=
  mkAxis 88 (Stepper.mk pos 1 None) None (F32.of_Z 80) (F32.of_Z 100)
    (F32.of_Z 1000) (-1) (F32.of_Z 200) (F32.of_Z 5) (F32.of_Z 50)
    (F32.of_Z 500) 100 0 zero_plan 0 0.


(** The plan of scenario 2 (4000 steps, ramps of 400), [k] steps in. *)
Definition scenario_plan (k : Z) : LinearAxisMovement :=
  mkMovement 1 400 400 3200 4000 k.

(** A coasting axis at 6 steps/mm and 100 mm/s: 600 steps/s. *)
Definition coasting_axis : LinearAxis :=
  mkAxis 88 (Stepper.mk 0 1 None) None (F32.of_Z 6) (F32.of_Z 100)
    (F32.of_Z 1000) (-1) (F32.of_Z 200) (F32.of_Z 5) (F32.of_Z 50)
    (F32.of_Z 500) 100 0 (mkMovement 1 5 5 1000 1010 100) 0 0.

(** The float 2^-100. *)
Definition tiny : F32.float := S754_finite false 8388608 (-123).

(** A coasting axis whose resolution and velocity are both 2^-100. *)
Definition underflow_axis : LinearAxis :=
  mkAxis 88 (Stepper.mk 0 1 None) None tiny tiny
    (F32.of_Z 1000) (-1) (F32.of_Z 200) (F32.of_Z 5) (F32.of_Z 50)
    (F32.of_Z 500) 100 0 (mkMovement 1 5 5 1000 1010 100) 0 0.

(** A clock that advances by 10 ms per reading; nothing ever stalls, the
    endstop never closes and an undefined cast leaves INT64_MIN. *)
Definition quiet_env : Env :=
  mkEnv (fun k => Z.of_nat k * 10000) (fun _ => false) (fun _ _ => 0)
        (fun _ => Int.INT64_MIN).

(** The seek of scenario-sized numbers: 1 step/mm, at most 20 mm. *)
Definition seek_axis : LinearAxis :=
  mkAxis 88 (Stepper.mk 0 1 None) None (F32.of_Z 1) (F32.of_Z 100)
    (F32.of_Z 1000) (-1) (F32.of_Z 20) (F32.of_Z 5) (F32.of_Z 50)
    (F32.of_Z 500) 100 7 zero_plan 0 0.

(** A clock that advances 30 µs from one reading to the next. *)
Definition fine_env : Env :=
  mkEnv (fun k => Z.of_nat k * 30) (fun _ => false) (fun _ _ => 0)
        (fun _ => Int.INT64_MIN).

(** * Properties *)

(** ** Machine integers *)

Lemma wrap32_id (z : Z) :
  Int.INT32_MIN <= z <= Int.INT32_MAX -> Int.wrap32 z = z.
Proof.
  unfold Int.wrap32, Int.wrap, Int.INT32_MIN, Int.INT32_MAX. intros H.
  change (2 ^ (32 - 1)) with 2147483648. change (2 ^ 32) with 4294967296.
  rewrite Z.mod_small; lia.
Qed.

Lemma wrap32_range (z : Z) :
  Int.INT32_MIN <= Int.wrap32 z <= Int.INT32_MAX.
Proof.
  unfold Int.wrap32, Int.wrap, Int.INT32_MIN, Int.INT32_MAX.
  change (2 ^ (32 - 1)) with 2147483648. change (2 ^ 32) with 4294967296.
  pose proof (Z.mod_pos_bound (z + 2147483648) 4294967296). lia.
Qed.

Lemma wrap8_id (z : Z) : -128 <= z <= 127 -> Int.wrap8 z = z.
Proof.
  unfold Int.wrap8, Int.wrap. intros H.
  change (2 ^ (8 - 1)) with 128. change (2 ^ 8) with 256.
  rewrite Z.mod_small; lia.
Qed.

Lemma saturate_range (lo hi z : Z) :
  lo <= hi -> lo <= Int.saturate lo hi z <= hi.
Proof. unfold Int.saturate. lia. Qed.

Lemma saturate_nonneg (lo hi z : Z) :
  0 <= hi -> 0 <= z -> 0 <= Int.saturate lo hi z.
Proof. unfold Int.saturate. lia. Qed.

Lemma abs_id (z : Z) :
  - Int.INT32_MAX <= z <= Int.INT32_MAX -> Int.abs z = Z.abs z.
Proof.
  intros H. unfold Int.abs. apply wrap32_id.
  unfold Int.INT32_MIN, Int.INT32_MAX in *. lia.
Qed.

(** ** Signs of binary32 results *)

Lemma round_aux_sign (s : bool) (m e : Z) (l : location) :
  has_sign s (binary_round_aux F32.prec F32.emax s m e l).
Proof.
  unfold binary_round_aux.
  destruct (shr_fexp F32.prec F32.emax m e l) as [mrs' e'].
  destruct (shr_fexp F32.prec F32.emax _ e' loc_Exact) as [mrs'' e''].
  destruct (shr_m mrs''); [reflexivity| |exact I].
  destruct (e'' <=? F32.emax - F32.prec); reflexivity.
Qed.

Lemma gt_zero_not_negative (x : F32.float) :
  F32.gt x F32.zero = true -> has_sign false x.
Proof.
  destruct x as [s|s| |s m e]; try destruct s;
    unfold F32.gt, SFltb; simpl; congruence.
Qed.

Lemma lt_zero_not_positive (x : F32.float) :
  F32.gt F32.zero x = true -> has_sign true x.
Proof.
  destruct x as [s|s| |s m e]; try destruct s;
    unfold F32.gt, SFltb; simpl; congruence.
Qed.

Lemma mul_sign (a b : bool) (x y : F32.float) :
  has_sign a x -> has_sign b y -> has_sign (xorb a b) (F32.mul x y).
Proof.
  destruct x as [sx|sx| |sx mx ex], y as [sy|sy| |sy my ey];
    simpl; trivial; intros -> ->; trivial.
  apply round_aux_sign.
Qed.

Lemma div_sign (a b : bool) (x y : F32.float) :
  has_sign a x -> has_sign b y -> has_sign (xorb a b) (F32.div x y).
Proof.
  destruct x as [sx|sx| |sx mx ex], y as [sy|sy| |sy my ey];
    simpl; trivial; intros -> ->; trivial.
  unfold F32.div, SFdiv.
  destruct (SFdiv_core_binary F32.prec F32.emax (Z.pos mx) ex (Z.pos my) ey)
    as [[mz ez] lz].
  apply round_aux_sign.
Qed.

Lemma half_not_negative : has_sign false F32.half.
Proof. vm_compute. reflexivity. Qed.

Lemma of_Z_sign (n : Z) : has_sign (n <? 0) (F32.of_Z n).
Proof.
  destruct n as [|p|p]; [reflexivity| |];
    unfold F32.of_Z, binary_normalize, binary_round;
    destruct (shl_align _ _ _) as [mz ez]; apply round_aux_sign.
Qed.

Lemma ceilf_not_positive (x : F32.float) :
  has_sign true x -> has_sign true (F32.ceilf x).
Proof.
  destruct x as [s|s| |s m e]; trivial.
  intros H; red in H; subst s. unfold F32.ceilf.
  destruct (0 <=? e) eqn:He; [reflexivity|]. apply Z.leb_gt in He.
  destruct (Z.pos m / 2 ^ (- e) =? 0) eqn:Hq; [reflexivity|].
  apply Z.eqb_neq in Hq.
  assert (0 <= Z.pos m / 2 ^ (- e))
    by (apply Z.div_pos; [lia | apply Z.pow_pos_nonneg; lia]).
  pose proof (of_Z_sign (- (Z.pos m / 2 ^ (- e)))) as Hs.
  replace (- (Z.pos m / 2 ^ (- e)) <? 0) with true in Hs; [exact Hs|].
  symmetry. apply Z.ltb_lt. lia.
Qed.

Lemma lroundf_range (x : F32.float) :
  Int.INT32_MIN <= F32.lroundf x <= Int.INT32_MAX.
Proof.
  unfold F32.lroundf. destruct (F32.round_half_away x).
  - apply saturate_range. discriminate.
  - destruct x as [s|[|]| |s m e]; simpl;
      unfold Int.INT32_MIN, Int.INT32_MAX; lia.
Qed.

(** The magnitude computed by [round_half_away] is never negative. *)
Lemma round_magnitude_nonneg (m : positive) (e : Z) :
  0 <= (if 0 <=? e then Z.pos m * 2 ^ e
        else (2 * Z.pos m + 2 ^ (- e)) / 2 ^ (- e + 1)).
Proof.
  destruct (0 <=? e) eqn:He.
  - apply Z.mul_nonneg_nonneg; [lia | apply Z.pow_nonneg; lia].
  - apply Z.div_pos; [|apply Z.pow_pos_nonneg; lia].
    pose proof (Z.pow_nonneg 2 (- e)). lia.
Qed.

Lemma lroundf_nonneg (x : F32.float) : has_sign false x -> 0 <= F32.lroundf x.
Proof.
  destruct x as [s|s| |s m e]; intros H; red in H; subst;
    try (vm_compute; discriminate).
  unfold F32.lroundf, F32.round_half_away.
  apply saturate_nonneg; [discriminate|]. apply round_magnitude_nonneg.
Qed.

Lemma lroundf_nonpos (x : F32.float) : has_sign true x -> F32.lroundf x <= 0.
Proof.
  destruct x as [s|s| |s m e]; intros H; red in H; subst;
    try (vm_compute; discriminate).
  unfold F32.lroundf, F32.round_half_away.
  pose proof (round_magnitude_nonneg m e) as Hm.
  unfold Int.saturate, Int.INT32_MIN, Int.INT32_MAX. lia.
Qed.

(** ** The profiler *)

(** The ideal ramp length is a non-negative [int32_t] as soon as the
    kinematic configuration is positive. *)
Lemma ramp_steps_range (m : LinearAxis) :
  F32.gt (steps_per_mm m) F32.zero = true ->
  F32.gt (velocity_mm_s m) F32.zero = true ->
  F32.gt (acceleration_mm_s2 m) F32.zero = true ->
  0 <= ramp_steps m <= Int.INT32_MAX.
Proof.
  intros Hs Hv Ha. unfold ramp_steps.
  apply gt_zero_not_negative in Hs, Hv, Ha.
  rewrite wrap32_id by apply lroundf_range.
  split; [|apply lroundf_range].
  apply lroundf_nonneg.
  apply (mul_sign false false); [|exact Hs].
  apply (mul_sign false false); [|exact Hv].
  apply (mul_sign false false); [exact half_not_negative|].
  apply (div_sign false false); assumption.
Qed.

(** The plan in terms of the exact step difference, when no [int32_t]
    operation of the profiler overflows. *)
Lemma calculate_move_exact (m : LinearAxis) (dest_mm : F32.float) :
  let delta := mm_to_steps m dest_mm - Stepper.total_steps (stepper m) in
  let total := Z.abs delta in
  let ramp := ramp_steps m in
  - Int.INT32_MAX <= delta <= Int.INT32_MAX ->
  0 <= ramp <= Int.INT32_MAX ->
  Int.INT32_MIN <= total - 2 * ramp ->
  LinearAxis_calculate_move m dest_mm =
    if total - 2 * ramp <=? 0
    then mkMovement (if delta <? 0 then -1 else 1)
           (total / 2) (total - total / 2) 0 total 0
    else mkMovement (if delta <? 0 then -1 else 1)
           ramp ramp (total - 2 * ramp) total 0.
Proof.
  intros delta total ramp Hd Hr Hc. unfold LinearAxis_calculate_move.
  fold delta. fold ramp.
  assert (Hw : Int.wrap32 delta = delta)
    by (apply wrap32_id; unfold Int.INT32_MIN, Int.INT32_MAX in *; lia).
  rewrite Hw. rewrite (abs_id delta Hd). fold total.
  assert (Ht : 0 <= total <= Int.INT32_MAX)
    by (unfold total, Int.INT32_MAX in *; lia).
  rewrite (wrap32_id (total - ramp))
    by (unfold Int.INT32_MIN, Int.INT32_MAX in *; lia).
  rewrite (wrap32_id (total - ramp - ramp))
    by (unfold Int.INT32_MIN, Int.INT32_MAX in *; lia).
  replace (total - ramp - ramp) with (total - 2 * ramp) by lia.
  rewrite Z.quot_div_nonneg by lia.
  rewrite (wrap32_id (total - total / 2)); [reflexivity|].
  pose proof (Z.div_pos total 2). pose proof (Z.div_le_upper_bound total 2 total).
  unfold Int.INT32_MIN, Int.INT32_MAX in *. lia.
Qed.

(** C1 (as amended).  For a positive configuration and a destination for
    which the profiler's [int32_t] arithmetic does not overflow (the step
    difference has a magnitude of at most INT32_MAX and the coast count
    [total - 2 * ramp] is not below INT32_MIN), the plan satisfies
    accel + coast + decel = total with all four counts non-negative; either
    the short-move correction applied, and then accel = total / 2,
    decel = total - accel and coast = 0, or accel = decel = the ideal ramp. *)
Theorem calculate_move_partition (m : LinearAxis) (dest_mm : F32.float) :
  F32.gt (steps_per_mm m) F32.zero = true ->
  F32.gt (velocity_mm_s m) F32.zero = true ->
  F32.gt (acceleration_mm_s2 m) F32.zero = true ->
  - Int.INT32_MAX <= step_delta m dest_mm <= Int.INT32_MAX ->
  Int.INT32_MIN <= Z.abs (step_delta m dest_mm) - 2 * ramp_steps m ->
  forall mv, mv = LinearAxis_calculate_move m dest_mm ->
  accel_step_count mv + coast_step_count mv + decel_step_count mv
    = total_step_count mv
  /\ 0 <= accel_step_count mv /\ 0 <= coast_step_count mv
  /\ 0 <= decel_step_count mv /\ 0 <= total_step_count mv
  /\ total_step_count mv = Z.abs (step_delta m dest_mm)
  /\ (if total_step_count mv - 2 * ramp_steps m <=? 0
      then accel_step_count mv = total_step_count mv / 2
           /\ decel_step_count mv = total_step_count mv - accel_step_count mv
           /\ coast_step_count mv = 0
      else accel_step_count mv = decel_step_count mv
           /\ accel_step_count mv = ramp_steps m).
Proof.
  intros Hs Hv Ha Hd Hc mv ->.
  pose proof (ramp_steps_range m Hs Hv Ha) as Hr.
  rewrite (calculate_move_exact m dest_mm Hd Hr Hc).
  fold (step_delta m dest_mm).
  set (total := Z.abs (step_delta m dest_mm)) in *.
  assert (0 <= total) by (unfold total; lia).
  pose proof (Z.div_pos total 2).
  pose proof (Z.div_le_upper_bound total 2 total).
  destruct (total - 2 * ramp_steps m <=? 0) eqn:Hshort;
    cbn [accel_step_count coast_step_count decel_step_count
         total_step_count];
    rewrite Hshort.
  - repeat split; lia.
  - apply Z.leb_gt in Hshort. repeat split; lia.
Qed.

Lemma calculate_move_partition_witness :
  LinearAxis_calculate_move slow_axis (F32.of_Z 11)
    = mkMovement 1 5 6 0 11 0
  /\ 5 + 0 + 6 = 11.
Proof.
  pose proof (calculate_move_partition slow_axis (F32.of_Z 11)
                eq_refl eq_refl eq_refl) as H.
  assert (Hd : - Int.INT32_MAX <= step_delta slow_axis (F32.of_Z 11)
               <= Int.INT32_MAX) by (vm_compute; split; discriminate).
  assert (Hc : Int.INT32_MIN <= Z.abs (step_delta slow_axis (F32.of_Z 11))
                                 - 2 * ramp_steps slow_axis)
    by (vm_compute; discriminate).
  specialize (H Hd Hc _ eq_refl).
  split; [vm_compute; reflexivity | exact (proj1 H)].
Defined.

(** C1 as stated fails: from step 0 the destination -2147483648 mm at
    1 step/mm has delta_steps = INT32_MIN, whose [abs] is INT32_MIN again:
    the plan has a negative total and counts that do not sum to it. *)
Lemma calculate_move_partition_counterexample :
  let m := unit_axis 0 in
  let mv := LinearAxis_calculate_move m (F32.of_Z (-2147483648)) in
  F32.gt (steps_per_mm m) F32.zero = true
  /\ F32.gt (velocity_mm_s m) F32.zero = true
  /\ F32.gt (acceleration_mm_s2 m) F32.zero = true
  /\ mv = mkMovement (-1) 5 5 2147483638 (-2147483648) 0
  /\ ~ (accel_step_count mv + coast_step_count mv + decel_step_count mv
          = total_step_count mv
        /\ 0 <= total_step_count mv).
Proof.
  vm_compute. repeat split; try reflexivity.
  intros [H _]. discriminate H.
Qed.

(** ** Starting a move *)

Section StartMove.

Variable env : Env.

Lemma start_move_current (w : World) (mv : LinearAxisMovement) :
  _current_move (axis (LinearAxis_start_move env w mv)) = mv.
Proof. reflexivity. Qed.

Lemma start_move_stepper (w : World) (mv : LinearAxisMovement) :
  stepper (axis (LinearAxis_start_move env w mv))
  = Stepper.set_direction (Int.wrap8 (direction mv)) (stepper (axis w)).
Proof. reflexivity. Qed.

Lemma start_move_stepper2 (w : World) (mv : LinearAxisMovement) :
  stepper2 (axis (LinearAxis_start_move env w mv))
  = option_map (Stepper.set_direction (Int.wrap8 (direction mv)))
      (stepper2 (axis w)).
Proof. reflexivity. Qed.

Lemma start_move_trace (w : World) (mv : LinearAxisMovement) :
  trace (LinearAxis_start_move env w mv) = trace w.
Proof. reflexivity. Qed.

End StartMove.

(** The sign the profiler gives to a plan is +1 or -1. *)
Lemma calculate_move_direction_eq (m : LinearAxis) (dest_mm : F32.float) :
  direction (LinearAxis_calculate_move m dest_mm)
  = if Int.wrap32 (step_delta m dest_mm) <? 0 then -1 else 1.
Proof.
  unfold LinearAxis_calculate_move, step_delta.
  destruct (Int.wrap32 (Int.wrap32 (Int.abs _ - ramp_steps m) - ramp_steps m)
            <=? 0); reflexivity.
Qed.

(** A destination below zero has a step target that is not positive. *)
Lemma mm_to_steps_nonpos (m : LinearAxis) (dest_mm : F32.float) :
  F32.gt (steps_per_mm m) F32.zero = true ->
  F32.gt F32.zero dest_mm = true ->
  mm_to_steps m dest_mm <= 0.
Proof.
  intros Hs Hd. unfold mm_to_steps.
  rewrite wrap32_id by apply lroundf_range.
  apply lroundf_nonpos, ceilf_not_positive.
  apply (mul_sign true false).
  - apply lt_zero_not_positive, Hd.
  - apply gt_zero_not_negative, Hs.
Qed.

(** C7 (as amended).  The profiler sets direction to the sign of
    [delta_steps], the 32-bit difference dest_steps - total_steps, with +1
    for a zero difference, so direction is +1 or -1 always; a destination
    below zero from a positive position yields -1 provided the difference
    does not fall below INT32_MIN; [LinearAxis_start_move] latches the
    direction of the plan onto the primary driver and, when present, onto
    the secondary driver. *)
Theorem calculate_move_direction
  (env : Env) (w : World) (dest_mm : F32.float) :
  let m := axis w in
  let mv := LinearAxis_calculate_move m dest_mm in
  let w' := LinearAxis_start_move env w mv in
  (direction mv = 1 \/ direction mv = -1)
  /\ direction mv = (if Int.wrap32 (step_delta m dest_mm) <? 0 then -1 else 1)
  /\ (F32.gt (steps_per_mm m) F32.zero = true ->
      F32.gt F32.zero dest_mm = true ->
      0 < Stepper.total_steps (stepper m) ->
      Int.INT32_MIN <= step_delta m dest_mm ->
      direction mv = -1)
  /\ Stepper.direction (stepper (axis w')) = direction mv
  /\ option_map Stepper.direction (stepper2 (axis w'))
     = option_map (fun _ => direction mv) (stepper2 m).
Proof.
  intros m mv w'.
  assert (Hdir : direction mv
                 = if Int.wrap32 (step_delta m dest_mm) <? 0 then -1 else 1)
    by apply calculate_move_direction_eq.
  assert (Hpm : direction mv = 1 \/ direction mv = -1)
    by (rewrite Hdir; destruct (_ <? 0); auto).
  assert (Hw8 : Int.wrap8 (direction mv) = direction mv)
    by (apply wrap8_id; lia).
  split; [exact Hpm|]. split; [exact Hdir|]. split; [|split].
  - intros Hs Hd Hpos Hlo. rewrite Hdir.
    pose proof (mm_to_steps_nonpos m dest_mm Hs Hd) as Hn.
    unfold step_delta in *.
    rewrite wrap32_id by (unfold Int.INT32_MAX; lia).
    assert (E : (mm_to_steps m dest_mm - Stepper.total_steps (stepper m) <? 0)
                = true) by (apply Z.ltb_lt; lia).
    rewrite E. reflexivity.
  - unfold w'. rewrite start_move_stepper, Hw8. reflexivity.
  - unfold w'. rewrite start_move_stepper2, Hw8.
    fold m. destruct (stepper2 m); reflexivity.
Qed.

Lemma calculate_move_direction_witness :
  let w := world_of gantry_axis in
  let mv := LinearAxis_calculate_move gantry_axis (F32.of_Z (-1)) in
  let w' := LinearAxis_start_move bench_env w mv in
  direction mv = -1
  /\ Stepper.direction (stepper (axis w')) = -1
  /\ option_map Stepper.direction (stepper2 (axis w')) = Some (-1).
Proof.
  intros w mv w'.
  destruct (calculate_move_direction bench_env w (F32.of_Z (-1)))
    as (_ & _ & Hneg & Hp & Hs).
  assert (H : direction mv = -1).
  { apply Hneg; vm_compute; congruence. }
  split; [exact H|]. split.
  - exact (eq_trans Hp H).
  - vm_compute. reflexivity.
Defined.

(** C7 as stated fails: at 1 step/mm, from step 1, the destination
    -2147483648 mm gives dest_steps = INT32_MIN; the 32-bit difference
    INT32_MIN - 1 wraps to INT32_MAX and the plan moves in direction +1. *)
Lemma calculate_move_direction_counterexample :
  let m := unit_axis 1 in
  let dest_mm := F32.of_Z (-2147483648) in
  F32.gt F32.zero dest_mm = true
  /\ 0 < Stepper.total_steps (stepper m)
  /\ mm_to_steps m dest_mm = -2147483648
  /\ direction (LinearAxis_calculate_move m dest_mm) = 1.
Proof. vm_compute. repeat split; reflexivity. Qed.

(** ** Position round trip *)



(** ** Interval calculation *)

Lemma bootstrap_interval :
  F32.to_int64 (F32.mul F32.milli F32.million) = Some 1000.
Proof. vm_compute. reflexivity. Qed.

(** Where the cast is defined it yields the integer part of the exact
    value [n / d] of the float: the quotient rounded toward zero. *)
Lemma to_int64_truncates (x : F32.float) (z n d : Z) :
  F32.to_int64 x = Some z ->
  F32.exact x = Some (n, d) ->
  z = Z.quot n d.
Proof.
  unfold F32.to_int64, F32.truncate, F32.exact.
  destruct x as [s|s| |s m e]; try discriminate.
  - intros Hz Hx. cbn in Hz. injection Hz as <-. injection Hx as <- <-.
    reflexivity.
  - destruct (_ && _); [|discriminate].
    intros Hz Hx. injection Hz as <-.
    destruct (0 <=? e) eqn:He; injection Hx as <- <-.
    + rewrite Z.quot_1_r. destruct s; [|reflexivity].
      destruct (2 ^ e); reflexivity.
    + apply Z.leb_gt in He.
      assert (Hd : 0 < 2 ^ (- e)) by (apply Z.pow_pos_nonneg; lia).
      destruct s.
      * change (Z.neg m) with (- Z.pos m).
        rewrite Z.quot_opp_l by lia.
        rewrite Z.quot_div_nonneg by lia. reflexivity.
      * rewrite Z.quot_div_nonneg by lia. reflexivity.
Qed.

Section Intervals.

Variable env : Env.

Lemma step_interval_le (m : LinearAxis) :
  _step_interval (LinearAxis_calculate_step_interval env m) <= 5000.
Proof.
  unfold LinearAxis_calculate_step_interval.
  cbn [_step_interval set_step_interval].
  destruct (_ >? 5000) eqn:E; [lia|].
  rewrite Z.gtb_ltb in E. apply Z.ltb_ge in E. exact E.
Qed.

(** Where the cast of the product is defined, the interval is its result
    capped at 5000. *)
Lemma step_interval_defined (m : LinearAxis) (z : Z) :
  F32.to_int64 (F32.mul (s_per_step m) F32.million) = Some z ->
  _step_interval (LinearAxis_calculate_step_interval env m) = Z.min 5000 z.
Proof.
  intros Hz. unfold LinearAxis_calculate_step_interval, cast_int64.
  rewrite Hz. cbn [_step_interval set_step_interval].
  destruct (z >? 5000) eqn:E.
  - apply Z.gtb_lt in E. lia.
  - rewrite Z.gtb_ltb in E. apply Z.ltb_ge in E. lia.
Qed.

Lemma timed_step_interval_le (w : World) :
  _step_interval (axis w) <= 5000 ->
  _step_interval (axis (snd (LinearAxis_timed_step env w))) <= 5000.
Proof.
  intros H. unfold LinearAxis_timed_step, get_absolute_time.
  destruct (absolute_time_diff_us _ _ >? 0); [exact H|].
  apply step_interval_le.
Qed.

Lemma timed_steps_interval_le (n : nat) (w : World) :
  _step_interval (axis w) <= 5000 ->
  _step_interval (axis (timed_steps env n w)) <= 5000.
Proof.
  revert w. induction n as [|n IH]; intros w H; [exact H|].
  apply IH, timed_step_interval_le, H.
Qed.

End Intervals.

(** C4 (as amended).  The interval never exceeds 5000 µs, whatever the
    platform makes of a cast that C leaves undefined, in particular at
    every tick that follows [start_move].  When the instantaneous velocity
    is not above zero, s_per_step is the constant 0.001f, no quotient, and
    the interval is 1000 µs.  When it is above zero, s_per_step is
    1 / (v / (1 / steps_per_mm)) and, where the cast of s_per_step * 10^6
    is defined, the interval is the integer part of that binary32 value
    (its exact value rounded toward zero, not to nearest) capped at
    5000. *)
Theorem step_interval_bounded (env : Env) (m : LinearAxis) :
  _step_interval (LinearAxis_calculate_step_interval env m) <= 5000
  /\ (F32.gt (inst_velocity m) F32.zero = false ->
      s_per_step m = F32.milli
      /\ _step_interval (LinearAxis_calculate_step_interval env m) = 1000)
  /\ (F32.gt (inst_velocity m) F32.zero = true ->
      s_per_step m
      = F32.div F32.one
          (F32.div (inst_velocity m) (F32.div F32.one (steps_per_mm m)))
      /\ forall z n d,
           F32.to_int64 (F32.mul (s_per_step m) F32.million) = Some z ->
           F32.exact (F32.mul (s_per_step m) F32.million) = Some (n, d) ->
           z = Z.quot n d
           /\ _step_interval (LinearAxis_calculate_step_interval env m)
              = Z.min 5000 z)
  /\ (forall w mv n,
        _step_interval
          (axis (timed_steps env n (LinearAxis_start_move env w mv))) <= 5000).
Proof.
  split; [apply step_interval_le|]. split; [|split].
  - intros Hv.
    assert (Hs : s_per_step m = F32.milli)
      by (unfold s_per_step; rewrite Hv; reflexivity).
    split; [exact Hs|].
    rewrite (step_interval_defined env m 1000).
    + reflexivity.
    + rewrite Hs. exact bootstrap_interval.
  - intros Hv. split.
    + unfold s_per_step, steps_per_s. rewrite Hv. reflexivity.
    + intros z n d Hz Hx. split.
      * exact (to_int64_truncates _ z n d Hz Hx).
      * exact (step_interval_defined env m z Hz).
  - intros w mv n. apply timed_steps_interval_le.
    cbn. lia.
Qed.

Lemma step_interval_bounded_witness :
  let m := set_current_move (scenario_plan 0) (scenario_axis 0) in
  let m' := set_current_move (scenario_plan 1000) (scenario_axis 0) in
  F32.gt (inst_velocity m) F32.zero = false
  /\ _step_interval (LinearAxis_calculate_step_interval quiet_env m) = 1000
  /\ F32.gt (inst_velocity m') F32.zero = true
  /\ F32.exact (F32.mul (s_per_step m') F32.million)
     = Some (16384001, 131072)
  /\ _step_interval (LinearAxis_calculate_step_interval quiet_env m') = 125.
Proof.
  intros m m'.
  destruct (step_interval_bounded quiet_env m) as (_ & Hzero & _).
  destruct (step_interval_bounded quiet_env m') as (_ & _ & Hpos & _).
  split; [vm_compute; reflexivity|].
  destruct (Hzero eq_refl) as [_ H1].
  split; [exact H1|].
  split; [vm_compute; reflexivity|].
  split; [vm_compute; reflexivity|].
  destruct (Hpos eq_refl) as [_ H2].
  destruct (H2 125 16384001 131072) as [_ H3]; [vm_compute; reflexivity ..|].
  exact H3.
Defined.

(** C4 as stated fails twice.  At 600 steps/s the source stores 1666 µs,
    the integer part of 1666.67, where rounding 10^6 / 600 gives 1667.  And
    a positive steps_per_mm does not exclude a zero divisor: with
    resolution and velocity 2^-100 the velocity is positive, the step rate
    v / (1 / steps_per_mm) underflows to zero, [1.0f / steps_per_s] divides
    by it and is infinite, and the cast of the infinite product is not
    defined; where the platform makes INT64_MIN of it, that is the interval
    stored. *)
Lemma step_interval_counterexample :
  F32.gt (steps_per_mm coasting_axis) F32.zero = true
  /\ inst_velocity coasting_axis = F32.of_Z 100
  /\ _step_interval (LinearAxis_calculate_step_interval quiet_env coasting_axis)
     = 1666
  /\ (2 * 1000000 + 100 * 6) / (2 * (100 * 6)) = 1667
  /\ F32.valid tiny = true
  /\ F32.gt (steps_per_mm underflow_axis) F32.zero = true
  /\ F32.gt (inst_velocity underflow_axis) F32.zero = true
  /\ steps_per_s underflow_axis = S754_zero false
  /\ s_per_step underflow_axis = S754_infinity false
  /\ F32.to_int64 (F32.mul (s_per_step underflow_axis) F32.million) = None
  /\ _step_interval (LinearAxis_calculate_step_interval quiet_env underflow_axis)
     = Int.INT64_MIN.
Proof. vm_compute. repeat split; reflexivity. Qed.

(** ** The step loop *)

Lemma calculate_step_interval_stepper (env : Env) (m : LinearAxis) :
  stepper (LinearAxis_calculate_step_interval env m) = stepper m.
Proof. reflexivity. Qed.

Lemma calculate_step_interval_move (env : Env) (m : LinearAxis) :
  _current_move (LinearAxis_calculate_step_interval env m) = _current_move m.
Proof. reflexivity. Qed.

(** On the zero plan the velocity is not positive, whatever the
    configuration: the interval is the bootstrap millisecond. *)
Lemma idle_velocity (m : LinearAxis) :
  _current_move m = zero_plan ->
  F32.gt (inst_velocity m) F32.zero = false.
Proof.
  intros H. unfold inst_velocity. rewrite H.
  cbn [steps_taken accel_step_count coast_step_count total_step_count
       zero_plan].
  change (0 <? 0) with false. change (0 <? Int.wrap32 (0 + 0)) with false.
  cbv iota. change (F32.of_Z 0) with (S754_zero false).
  change F32.two with (S754_finite false 8388608 (-22)).
  destruct (F32.div F32.one (steps_per_mm m)) as [[|]|[|]| |[|] p e];
    destruct (acceleration_mm_s2 m) as [[|]|[|]| |[|] q f]; reflexivity.
Qed.

Lemma idle_interval (env : Env) (m : LinearAxis) :
  _current_move m = zero_plan ->
  _step_interval (LinearAxis_calculate_step_interval env m) = 1000.
Proof.
  intros H. rewrite (step_interval_defined env m 1000); [reflexivity|].
  unfold s_per_step. rewrite (idle_velocity m H). exact bootstrap_interval.
Qed.

Section StepLoop.

Variable env : Env.

Lemma direct_step_idle (w : World) :
  total_step_count (_current_move (axis w)) = 0 ->
  LinearAxis_direct_step w = w.
Proof. intros H. unfold LinearAxis_direct_step. rewrite H. reflexivity. Qed.

Lemma direct_steps_idle (n : nat) (w : World) :
  total_step_count (_current_move (axis w)) = 0 ->
  direct_steps n w = w.
Proof.
  intros H. unfold direct_steps. induction n as [|n IH]; [reflexivity|].
  cbn [iterate]. rewrite (direct_step_idle w H). exact IH.
Qed.

Lemma direct_step_reads (w : World) :
  clock_reads (LinearAxis_direct_step w) = clock_reads w.
Proof.
  unfold LinearAxis_direct_step.
  destruct (total_step_count _ =? 0); [reflexivity|].
  destruct (stepper2 (axis w));
    match goal with |- context [if ?c then _ else _] => destruct c end;
    reflexivity.
Qed.

Lemma direct_step_moving (w : World) :
  total_step_count (_current_move (axis w)) <> 0 ->
  let w' := LinearAxis_direct_step w in
  stepper (axis w') = Stepper.pulse (stepper (axis w))
  /\ stepper2 (axis w') = option_map Stepper.pulse (stepper2 (axis w))
  /\ _current_move (axis w') = plan_after_step (_current_move (axis w))
  /\ trace w'
     = EvPulse (match stepper2 (axis w) with Some _ => true | None => false end)
         :: trace w.
Proof.
  intros H. unfold LinearAxis_direct_step, plan_after_step.
  apply Z.eqb_neq in H. rewrite H. clear H.
  destruct w as [m r p q t].
  destruct m as [nm s1 s2 spm v a hd hdist hb hv ha hs es mv0 si nx]. cbn.
  destruct s2; cbn;
    destruct (Int.wrap32 (steps_taken mv0 + 1) =? total_step_count mv0);
    repeat split.
Qed.

(** A tick before the deadline only reads the clock. *)
Lemma timed_step_wait (w : World) :
  clock env (clock_reads w) < _next_step_at (axis w) ->
  LinearAxis_timed_step env w = (false, after_read w).
Proof.
  intros H. unfold LinearAxis_timed_step, get_absolute_time,
    absolute_time_diff_us.
  cbn [axis].
  replace (_next_step_at (axis w) - clock env (clock_reads w) >? 0)
    with true by (symmetry; apply Z.gtb_lt; lia).
  reflexivity.
Qed.

(** A tick at or after the deadline steps, recomputes the interval and
    re-arms the deadline from a second reading of the clock. *)
Lemma timed_step_fire (w : World) :
  _next_step_at (axis w) <= clock env (clock_reads w) ->
  let w1 := with_axis (LinearAxis_calculate_step_interval env)
              (LinearAxis_direct_step (after_read w)) in
  LinearAxis_timed_step env w
  = (true,
     with_axis (set_next_step_at
                  (clock env (S (clock_reads w)) + _step_interval (axis w1)))
       (after_read w1)).
Proof.
  intros H w1. unfold LinearAxis_timed_step, get_absolute_time,
    absolute_time_diff_us.
  cbn [axis].
  replace (_next_step_at (axis w) - clock env (clock_reads w) >? 0)
    with false by (symmetry; rewrite Z.gtb_ltb; apply Z.ltb_ge; lia).
  unfold make_timeout_time_us, get_absolute_time.
  fold (after_read w). fold w1.
  assert (Hr : clock_reads w1 = S (clock_reads w)).
  { unfold w1. cbn [with_axis clock_reads].
    rewrite direct_step_reads. reflexivity. }
  rewrite Hr. unfold after_read at 1. rewrite Hr. reflexivity.
Qed.

Lemma timed_step_fires (w : World) :
  fst (LinearAxis_timed_step env w)
  = (_next_step_at (axis w) <=? clock env (clock_reads w)).
Proof.
  destruct (Z.leb_spec (_next_step_at (axis w)) (clock env (clock_reads w))).
  - rewrite timed_step_fire by assumption. reflexivity.
  - rewrite timed_step_wait by assumption. reflexivity.
Qed.

(** Ticks on an idle axis change neither plan, drivers nor trace. *)
Lemma timed_step_idle (w : World) :
  total_step_count (_current_move (axis w)) = 0 ->
  let w' := snd (LinearAxis_timed_step env w) in
  _current_move (axis w') = _current_move (axis w)
  /\ stepper (axis w') = stepper (axis w)
  /\ stepper2 (axis w') = stepper2 (axis w)
  /\ trace w' = trace w.
Proof.
  intros H.
  destruct (Z.leb_spec (_next_step_at (axis w)) (clock env (clock_reads w))).
  - rewrite timed_step_fire by assumption.
    rewrite (direct_step_idle (after_read w) H). repeat split.
  - rewrite timed_step_wait by assumption. repeat split.
Qed.

Lemma timed_steps_idle (n : nat) (w : World) :
  total_step_count (_current_move (axis w)) = 0 ->
  let w' := timed_steps env n w in
  _current_move (axis w') = _current_move (axis w)
  /\ stepper (axis w') = stepper (axis w)
  /\ stepper2 (axis w') = stepper2 (axis w)
  /\ trace w' = trace w.
Proof.
  revert w. induction n as [|n IH]; intros w H; [repeat split|].
  destruct (timed_step_idle w H) as (Hm & Hs & Hs2 & Ht).
  change (timed_steps env (S n) w)
    with (timed_steps env n (snd (LinearAxis_timed_step env w))).
  destruct (IH (snd (LinearAxis_timed_step env w))) as (Hm' & Hs' & Hs2' & Ht').
  { rewrite Hm. exact H. }
  cbv zeta. rewrite Hm', Hs', Hs2', Ht'. auto.
Qed.

End StepLoop.

(** C10.  [LinearAxis_timed_step] returns true exactly when the clock has
    reached [_next_step_at]; on an idle axis such a call emits no pulse (the
    trace, both drivers and the plan are unchanged) and still recomputes the
    interval and re-arms [_next_step_at] from it, so a true result does not
    imply a pulse. *)
Theorem timed_step_true_without_pulse (env : Env) (w : World) :
  let r := LinearAxis_timed_step env w in
  fst r = (_next_step_at (axis w) <=? clock env (clock_reads w))
  /\ (total_step_count (_current_move (axis w)) = 0 ->
      _next_step_at (axis w) <= clock env (clock_reads w) ->
      fst r = true
      /\ trace (snd r) = trace w
      /\ stepper (axis (snd r)) = stepper (axis w)
      /\ stepper2 (axis (snd r)) = stepper2 (axis w)
      /\ _current_move (axis (snd r)) = _current_move (axis w)
      /\ _step_interval (axis (snd r))
         = _step_interval (LinearAxis_calculate_step_interval env (axis w))
      /\ _next_step_at (axis (snd r))
         = clock env (S (clock_reads w)) + _step_interval (axis (snd r))
      /\ (_current_move (axis w) = zero_plan ->
          _step_interval (axis (snd r)) = 1000)).
Proof.
  intros r. split; [apply timed_step_fires|].
  intros Hidle Hdue. unfold r.
  rewrite (timed_step_fire env w Hdue).
  rewrite (direct_step_idle (after_read w) Hidle).
  repeat split.
  intros Hz. cbn [snd fst with_axis axis after_read].
  apply (idle_interval env (axis w) Hz).
Qed.

Lemma timed_step_true_without_pulse_witness :
  let w := mkWorld (scenario_axis 0) 5 0 0 [EvPulse false] in
  let r := LinearAxis_timed_step bench_env w in
  fst r = true
  /\ trace (snd r) = [EvPulse false]
  /\ _step_interval (axis (snd r)) = 1000
  /\ _next_step_at (axis (snd r)) = 61000.
Proof.
  intros w r.
  destruct (timed_step_true_without_pulse bench_env w) as [_ H].
  destruct H as (H1 & H2 & _ & _ & _ & _ & H7 & H8);
    [reflexivity | vm_compute; discriminate |].
  split; [exact H1|]. split; [exact H2|].
  split; [exact (H8 eq_refl)|].
  fold r in H7. rewrite H7. fold r in H8. rewrite (H8 eq_refl). reflexivity.
Defined.

(** C6.  A Movement with total_step_count = 0 is a no-op: right after
    [start_move] the axis is idle; every call of [direct_step] returns the
    world unchanged, so no driver is pulsed, steps_taken stays what the plan
    says (0 for every plan of the profiler) and total_steps is unchanged;
    the same holds through any number of [timed_step] ticks. *)
Theorem zero_length_move_is_noop
  (env : Env) (w : World) (mv : LinearAxisMovement) :
  total_step_count mv = 0 ->
  let w0 := LinearAxis_start_move env w mv in
  LinearAxis_is_moving (axis w0) = false
  /\ (forall n, direct_steps n w0 = w0)
  /\ (forall n,
        let wn := direct_steps n w0 in
        trace wn = trace w
        /\ steps_taken (_current_move (axis wn)) = steps_taken mv
        /\ (steps_taken mv = 0 -> steps_taken (_current_move (axis wn)) = 0)
        /\ Stepper.total_steps (stepper (axis wn))
           = Stepper.total_steps (stepper (axis w))
        /\ option_map Stepper.total_steps (stepper2 (axis wn))
           = option_map Stepper.total_steps (stepper2 (axis w)))
  /\ (forall n,
        let wn := timed_steps env n w0 in
        trace wn = trace w
        /\ LinearAxis_is_moving (axis wn) = false
        /\ steps_taken (_current_move (axis wn)) = steps_taken mv
        /\ Stepper.total_steps (stepper (axis wn))
           = Stepper.total_steps (stepper (axis w))).
Proof.
  intros Hz w0.
  assert (Hidle : total_step_count (_current_move (axis w0)) = 0)
    by (unfold w0; rewrite start_move_current; exact Hz).
  assert (Hs2 : option_map Stepper.total_steps (stepper2 (axis w0))
                = option_map Stepper.total_steps (stepper2 (axis w))).
  { unfold w0. rewrite start_move_stepper2.
    destruct (stepper2 (axis w)); reflexivity. }
  split; [|split; [|split]].
  - unfold LinearAxis_is_moving. rewrite Hidle. reflexivity.
  - intros n. apply direct_steps_idle, Hidle.
  - intros n wn. unfold wn. rewrite (direct_steps_idle n w0 Hidle).
    unfold w0 at 1 2 3 4.
    rewrite start_move_trace, start_move_current, start_move_stepper.
    repeat split; trivial.
  - intros n wn.
    destruct (timed_steps_idle env n w0 Hidle) as (Hm & Hs & _ & Ht).
    fold wn in Hm, Hs, Ht. unfold LinearAxis_is_moving.
    rewrite Ht, Hm, Hs, Hidle. unfold w0.
    rewrite start_move_trace, start_move_current, start_move_stepper.
    repeat split.
Qed.

Lemma zero_length_move_is_noop_witness :
  let w := world_of (scenario_axis 0) in
  let mv := LinearAxis_calculate_move (scenario_axis 0) (F32.of_Z 0) in
  let w0 := LinearAxis_start_move bench_env w mv in
  total_step_count mv = 0
  /\ LinearAxis_is_moving (axis w0) = false
  /\ trace (timed_steps bench_env 3 w0) = []
  /\ steps_taken (_current_move (axis (direct_steps 3 w0))) = 0.
Proof.
  intros w mv w0.
  assert (Hz : total_step_count mv = 0) by (vm_compute; reflexivity).
  destruct (zero_length_move_is_noop bench_env w mv Hz)
    as (Hidle & _ & Hdirect & Htimed).
  split; [exact Hz|]. split; [exact Hidle|]. split.
  - exact (proj1 (Htimed 3%nat)).
  - destruct (Hdirect 3%nat) as (_ & _ & H0 & _). apply H0.
    vm_compute. reflexivity.
Defined.

(** ** Running a move to completion *)

Section RunMove.

Variable env : Env.
Variables (p0 d : Z) (mv : LinearAxisMovement).
Hypothesis total_fits : total_step_count mv <= Int.INT32_MAX.

Lemma direct_step_progress (w : World) :
  progress p0 d mv (axis w) ->
  progress p0 d mv (axis (LinearAxis_direct_step w)).
Proof.
  intros [Hd [(k & Hk & Hmv & Hpos) | [Hidle Hpos]]].
  2:{ rewrite (direct_step_idle w Hidle). split; auto. }
  destruct (direct_step_moving w) as (Hs & _ & Hp & _).
  { rewrite Hmv. cbn [total_step_count set_steps_taken]. lia. }
  assert (Hw : Int.wrap32 (k + 1) = k + 1)
    by (apply wrap32_id; unfold Int.INT32_MIN, Int.INT32_MAX in *; lia).
  unfold progress. rewrite Hs, Hp, Hmv. unfold plan_after_step.
  cbn [Stepper.pulse Stepper.set_total_steps Stepper.total_steps
       Stepper.direction steps_taken total_step_count set_steps_taken].
  rewrite Hw, Hpos, Hd. split; [reflexivity|].
  destruct (k + 1 =? total_step_count mv) eqn:E;
    [apply Z.eqb_eq in E; right | apply Z.eqb_neq in E; left; exists (k + 1)];
    cbn [zero_plan total_step_count set_steps_taken];
    repeat split; try lia.
Qed.

Lemma timed_step_progress (w : World) :
  progress p0 d mv (axis w) ->
  progress p0 d mv (axis (snd (LinearAxis_timed_step env w))).
Proof.
  intros H.
  destruct (Z.leb_spec (_next_step_at (axis w)) (clock env (clock_reads w))).
  - rewrite timed_step_fire by assumption.
    apply (direct_step_progress (after_read w)) in H.
    exact H.
  - rewrite timed_step_wait by assumption. exact H.
Qed.

Lemma timed_steps_progress (n : nat) (w : World) :
  progress p0 d mv (axis w) ->
  progress p0 d mv (axis (timed_steps env n w)).
Proof.
  revert w. induction n as [|n IH]; intros w H; [exact H|].
  apply IH, timed_step_progress, H.
Qed.

End RunMove.

Lemma iterate_add {A : Type} (f : A -> A) (a b : nat) (x : A) :
  iterate f (a + b) x = iterate f b (iterate f a x).
Proof.
  revert x. induction a as [|a IH]; intros x; [reflexivity|].
  cbn [Nat.add iterate]. apply IH.
Qed.

Lemma progress_motion (p0 d : Z) (mv : LinearAxisMovement) (w w' : World) :
  motion w' = motion w ->
  progress p0 d mv (axis w) -> progress p0 d mv (axis w').
Proof.
  unfold motion, progress. intros E. injection E as E1 E2 E3.
  rewrite E1, E2, E3. trivial.
Qed.

(** *** Loops that tick until the move ends

    A loop whose body calls [LinearAxis_timed_step] once, and otherwise
    leaves plan, counter, direction, deadline and clock alone, ends every
    move, provided the clock advances between two readings. *)
Section LoopProgress.

Variable env : Env.
Variable St : Type.
Variable W : St -> World.
Variable body : St -> St.

Hypothesis clock_advances : forall k, clock env k < clock env (S k).

Hypothesis body_waits : forall s,
  clock env (clock_reads (W s)) < _next_step_at (axis (W s)) ->
  motion (W (body s)) = motion (W s)
  /\ _next_step_at (axis (W (body s))) = _next_step_at (axis (W s))
  /\ clock_reads (W (body s)) = S (clock_reads (W s)).

Hypothesis body_fires : forall s,
  _next_step_at (axis (W s)) <= clock env (clock_reads (W s)) ->
  motion (W (body s)) = motion (LinearAxis_direct_step (W s)).

Variables (p0 d : Z) (mv : LinearAxisMovement).
Hypothesis total_fits : total_step_count mv <= Int.INT32_MAX.

Lemma deadline_reached (n : nat) : forall s,
  (Z.to_nat (_next_step_at (axis (W s)) - clock env (clock_reads (W s)))
   <= n)%nat ->
  exists j,
    motion (W (iterate body j s)) = motion (W s)
    /\ _next_step_at (axis (W (iterate body j s)))
       <= clock env (clock_reads (W (iterate body j s))).
Proof.
  induction n as [|n IH]; intros s Hn.
  - exists O. split; [reflexivity|]. cbn [iterate]. lia.
  - destruct (Z.leb_spec (_next_step_at (axis (W s)))
                (clock env (clock_reads (W s)))) as [Hdue|Hwait].
    + exists O. split; [reflexivity | exact Hdue].
    + destruct (body_waits s Hwait) as (Hm & Ht & Hr).
      destruct (IH (body s)) as (j & Hj1 & Hj2).
      { rewrite Ht, Hr. pose proof (clock_advances (clock_reads (W s))). lia. }
      exists (S j). cbn [iterate]. split; [congruence | exact Hj2].
Qed.

Lemma loop_arrives (r : nat) : forall s,
  progress p0 d mv (axis (W s)) ->
  (forall k, 0 <= k < total_step_count mv ->
             _current_move (axis (W s)) = set_steps_taken k mv ->
             (Z.to_nat (total_step_count mv - k) <= r)%nat) ->
  exists j, arrived p0 d mv (W (iterate body j s)).
Proof.
  induction r as [|r IH]; intros s Hp Hr.
  - destruct Hp as [Hd [(k & Hk & Hmv & Hpos) | [Hidle Hpos]]].
    + specialize (Hr k Hk Hmv). lia.
    + exists O. split; [|exact Hpos].
      unfold LinearAxis_is_moving. cbn [iterate]. rewrite Hidle. reflexivity.
  - destruct (deadline_reached _ s (Nat.le_refl _)) as (j & Hm & Hdue).
    set (s1 := iterate body j s) in *.
    assert (Hp1 : progress p0 d mv (axis (W s1)))
      by (apply (progress_motion p0 d mv (W s)); assumption).
    assert (Hp2 : progress p0 d mv (axis (W (body s1)))).
    { apply (progress_motion p0 d mv (LinearAxis_direct_step (W s1)));
        [apply body_fires, Hdue|].
      apply direct_step_progress; assumption. }
    destruct (IH (body s1) Hp2) as (j2 & Hj2).
    { intros k Hkr Hk.
      pose proof (body_fires s1 Hdue) as Hb. unfold motion in Hb.
      injection Hb as Hb _ _. rewrite Hk in Hb.
      destruct Hp1 as [_ [(k1 & Hk1 & Hmv1 & _) | [Hidle _]]].
      - assert (Hk1' : _current_move (axis (W s)) = set_steps_taken k1 mv).
        { unfold motion in Hm. injection Hm as Hm _ _. congruence. }
        specialize (Hr k1 Hk1 Hk1').
        destruct (direct_step_moving (W s1)) as (_ & _ & Hplan & _).
        { rewrite Hmv1. cbn [total_step_count set_steps_taken]. lia. }
        rewrite Hplan, Hmv1 in Hb. unfold plan_after_step in Hb.
        cbn [steps_taken set_steps_taken total_step_count] in Hb.
        rewrite wrap32_id in Hb
          by (unfold Int.INT32_MIN, Int.INT32_MAX in *; lia).
        destruct (k1 + 1 =? total_step_count mv) eqn:E.
        + apply Z.eqb_eq in E.
          assert (total_step_count (set_steps_taken k mv) = 0)
            by (rewrite Hb; reflexivity).
          cbn [total_step_count set_steps_taken] in *. lia.
        + assert (steps_taken (set_steps_taken k mv) = k1 + 1)
            by (rewrite Hb; reflexivity).
          cbn [steps_taken set_steps_taken] in *. lia.
      - rewrite (direct_step_idle _ Hidle) in Hb.
        assert (total_step_count (set_steps_taken k mv) = 0)
          by (rewrite Hb; exact Hidle).
        cbn [total_step_count set_steps_taken] in *. lia. }
    exists (j + S j2)%nat. rewrite iterate_add. exact Hj2.
Qed.

Lemma loop_completes (s : St) :
  progress p0 d mv (axis (W s)) ->
  exists j, arrived p0 d mv (W (iterate body j s)).
Proof.
  intros Hp.
  apply (loop_arrives (Z.to_nat (total_step_count mv)) s Hp).
  intros k Hkr Hk.
  destruct Hp as [_ [(k1 & Hk1 & Hmv1 & _) | [Hidle _]]].
  - assert (steps_taken (set_steps_taken k mv) = k1)
      by (rewrite <- Hk, Hmv1; reflexivity).
    cbn [steps_taken set_steps_taken] in *. lia.
  - rewrite Hk in Hidle. cbn [total_step_count set_steps_taken] in Hidle.
    lia.
Qed.

End LoopProgress.

Lemma set_steps_taken_same (mv : LinearAxisMovement) :
  set_steps_taken (steps_taken mv) mv = mv.
Proof. destruct mv; reflexivity. Qed.

Section Completion.

Variable env : Env.

Lemma direct_step_axis_ext (w w' : World) :
  axis w = axis w' ->
  axis (LinearAxis_direct_step w) = axis (LinearAxis_direct_step w').
Proof.
  destruct w as [m r p q t], w' as [m' r' p' q' t']. cbn [axis].
  intros <-. unfold LinearAxis_direct_step. cbn [axis].
  destruct (total_step_count (_current_move m) =? 0); [reflexivity|].
  destruct m as [nm s1 s2 spm v a hd hdist hb hv ha hs es mv0 si nx].
  destruct s2; cbn;
    destruct (Int.wrap32 (steps_taken mv0 + 1) =? total_step_count mv0);
    reflexivity.
Qed.

Lemma timed_step_waits (w : World) :
  clock env (clock_reads w) < _next_step_at (axis w) ->
  let w' := snd (LinearAxis_timed_step env w) in
  motion w' = motion w
  /\ _next_step_at (axis w') = _next_step_at (axis w)
  /\ clock_reads w' = S (clock_reads w).
Proof.
  intros H. rewrite timed_step_wait by assumption. repeat split.
Qed.

Lemma timed_step_motion (w : World) :
  _next_step_at (axis w) <= clock env (clock_reads w) ->
  motion (snd (LinearAxis_timed_step env w))
  = motion (LinearAxis_direct_step w).
Proof.
  intros H. rewrite timed_step_fire by assumption.
  unfold motion. cbn [snd with_axis axis after_read].
  rewrite (direct_step_axis_ext (after_read w) w eq_refl). reflexivity.
Qed.

(** Right after [start_move] no step of the plan has been taken. *)
Lemma start_move_progress (w : World) (mv : LinearAxisMovement) :
  steps_taken mv = 0 ->
  0 <= total_step_count mv ->
  progress (Stepper.total_steps (stepper (axis w)))
    (Int.wrap8 (direction mv)) mv
    (axis (LinearAxis_start_move env w mv)).
Proof.
  intros Hs Ht. unfold progress.
  rewrite start_move_stepper, start_move_current.
  cbn [Stepper.set_direction Stepper.direction Stepper.total_steps].
  split; [reflexivity|].
  destruct (Z.eq_dec (total_step_count mv) 0) as [E|E].
  - right. rewrite E. split; [reflexivity | lia].
  - left. exists 0. rewrite <- Hs, set_steps_taken_same.
    repeat split; lia.
Qed.

End Completion.

(** C2.  A move installed by [start_move] (a plan with no step taken yet,
    a total within [int32_t] and a direction the driver can latch) and run
    by repeated calls of [LinearAxis_timed_step]: as soon as the axis is
    idle again the step counter has changed by direction * total_step_count;
    and the move does end when the clock advances between readings. *)
Theorem move_runs_to_completion
  (env : Env) (w : World) (mv : LinearAxisMovement) :
  steps_taken mv = 0 ->
  0 <= total_step_count mv <= Int.INT32_MAX ->
  -128 <= direction mv <= 127 ->
  let w0 := LinearAxis_start_move env w mv in
  (forall n,
     LinearAxis_is_moving (axis (timed_steps env n w0)) = false ->
     Stepper.total_steps (stepper (axis (timed_steps env n w0)))
     - Stepper.total_steps (stepper (axis w))
     = direction mv * total_step_count mv)
  /\ ((forall k, clock env k < clock env (S k)) ->
      exists n, LinearAxis_is_moving (axis (timed_steps env n w0)) = false).
Proof.
  intros Hs [Ht0 Ht] Hd w0.
  pose proof (start_move_progress env w mv Hs Ht0) as Hp.
  rewrite (wrap8_id _ Hd) in Hp. fold w0 in Hp.
  split.
  - intros n Hidle.
    pose proof (timed_steps_progress env _ _ mv Ht n w0 Hp) as Hn.
    destruct Hn as [_ [(k & Hk & Hmv & _) | [_ Hpos]]].
    + unfold LinearAxis_is_moving in Hidle. rewrite Hmv in Hidle.
      cbn [total_step_count set_steps_taken] in Hidle.
      rewrite Z.gtb_ltb in Hidle. apply Z.ltb_ge in Hidle. lia.
    + lia.
  - intros Hclock.
    destruct (loop_completes env World (fun w => w)
                (fun w => snd (LinearAxis_timed_step env w)) Hclock
                (timed_step_waits env) (timed_step_motion env)
                _ _ mv Ht w0 Hp) as (j & Hj & _).
    exists j. exact Hj.
Qed.

Lemma move_runs_to_completion_witness :
  let w := world_of (scenario_axis 1000) in
  let mv := mkMovement (-1) 3 4 0 7 0 in
  let w7 := timed_steps quiet_env 7 (LinearAxis_start_move quiet_env w mv) in
  LinearAxis_is_moving (axis w7) = false
  /\ Stepper.total_steps (stepper (axis w7)) - 1000 = -1 * 7.
Proof.
  intros w mv w7.
  assert (Hidle : LinearAxis_is_moving (axis w7) = false)
    by (vm_compute; reflexivity).
  split; [exact Hidle|].
  refine (proj1 (move_runs_to_completion quiet_env w mv eq_refl _ _) 7%nat Hidle);
    vm_compute; split; discriminate.
Defined.

(** ** The stall-based seek *)

(** What the profiler always returns, overflow or not: no step taken yet
    and a total that is either a non-negative [int32_t] or INT32_MIN. *)
Lemma abs_cases (z : Z) :
  Int.INT32_MIN <= z <= Int.INT32_MAX ->
  0 <= Int.abs z <= Int.INT32_MAX \/ Int.abs z = Int.INT32_MIN.
Proof.
  intros H. unfold Int.abs.
  destruct (Z.eq_dec z Int.INT32_MIN) as [->|Hne].
  - right. reflexivity.
  - left. rewrite wrap32_id; unfold Int.INT32_MIN, Int.INT32_MAX in *; lia.
Qed.

Lemma calculate_move_total (m : LinearAxis) (dest_mm : F32.float) :
  let mv := LinearAxis_calculate_move m dest_mm in
  total_step_count mv = Int.abs (Int.wrap32 (step_delta m dest_mm))
  /\ steps_taken mv = 0.
Proof.
  unfold LinearAxis_calculate_move, step_delta.
  destruct (Int.wrap32 (Int.wrap32 (Int.abs _ - ramp_steps m) - ramp_steps m)
            <=? 0); split; reflexivity.
Qed.

Lemma calculate_move_sane (m : LinearAxis) (dest_mm : F32.float) :
  plan_sane (LinearAxis_calculate_move m dest_mm).
Proof.
  destruct (calculate_move_total m dest_mm) as [Ht Hs].
  unfold plan_sane. rewrite Ht, Hs.
  destruct (abs_cases _ (wrap32_range (step_delta m dest_mm))) as [H|H];
    unfold Int.INT32_MIN, Int.INT32_MAX in *; lia.
Qed.

Lemma zero_plan_sane : plan_sane zero_plan.
Proof. unfold plan_sane, Int.INT32_MAX. cbn. lia. Qed.

Lemma plan_after_step_sane (mv : LinearAxisMovement) :
  plan_sane mv ->
  total_step_count mv <> 0 ->
  plan_sane (plan_after_step mv)
  /\ (accel_step_count mv <= steps_taken mv ->
      accel_step_count (plan_after_step mv)
      <= steps_taken (plan_after_step mv)).
Proof.
  intros (Hs & Ht & Hc) Hnz. unfold plan_after_step.
  destruct (Z.eq_dec (steps_taken mv) Int.INT32_MAX) as [Emax|Emax].
  - assert (Et : total_step_count mv = Int.INT32_MIN)
      by (unfold Int.INT32_MAX in *; lia).
    rewrite Emax, Et. change (Int.wrap32 (Int.INT32_MAX + 1) =? Int.INT32_MIN)
      with true. cbv iota. split; [apply zero_plan_sane | cbn; lia].
  - rewrite wrap32_id by (unfold Int.INT32_MIN, Int.INT32_MAX in *; lia).
    destruct (steps_taken mv + 1 =? total_step_count mv) eqn:E.
    + split; [apply zero_plan_sane | cbn; lia].
    + apply Z.eqb_neq in E. unfold plan_sane.
      cbn [steps_taken total_step_count accel_step_count set_steps_taken].
      unfold Int.INT32_MIN, Int.INT32_MAX in *. split; [|lia].
      repeat split; lia.
Qed.

Section Seek.

Variable env : Env.

Lemma seek_body_unfold (s : SeekLoop) :
  let w1 := snd (LinearAxis_timed_step env (seek_world s)) in
  let check := arms w1 || check_for_stall s in
  stallguard_seek_body env s
  = if check
    then (mkSeek (snd (Stepper_stalled env (armed_world w1))) true,
          stall_flag env (stall_polls w1))
    else (mkSeek (armed_world w1) false, false).
Proof.
  unfold stallguard_seek_body, armed_world, arms.
  destruct (_ =? _); cbn [orb]; [reflexivity|].
  destruct (check_for_stall s); reflexivity.
Qed.

(** Arming and polling touch neither plan, counter, direction, deadline
    nor clock. *)
Lemma seek_body_motion (s : SeekLoop) :
  let w1 := snd (LinearAxis_timed_step env (seek_world s)) in
  let w' := seek_world (fst (stallguard_seek_body env s)) in
  motion w' = motion w1
  /\ _next_step_at (axis w') = _next_step_at (axis w1)
  /\ clock_reads w' = clock_reads w1.
Proof.
  cbv zeta. rewrite seek_body_unfold. unfold armed_world.
  destruct (arms _); destruct (check_for_stall s); cbn [orb];
    repeat split.
Qed.

Lemma timed_step_plan (w : World) :
  let w1 := snd (LinearAxis_timed_step env w) in
  Stepper.stallguard (stepper (axis w1))
    = Stepper.stallguard (stepper (axis w))
  /\ stall_polls w1 = stall_polls w
  /\ (_current_move (axis w1) = _current_move (axis w)
      \/ (total_step_count (_current_move (axis w)) <> 0
          /\ _current_move (axis w1)
             = plan_after_step (_current_move (axis w)))).
Proof.
  destruct (Z.leb_spec (_next_step_at (axis w)) (clock env (clock_reads w))).
  2:{ rewrite timed_step_wait by assumption. repeat split. left. reflexivity. }
  rewrite timed_step_fire by assumption.
  cbn [snd with_axis axis after_read stall_polls set_next_step_at stepper
       _current_move].
  rewrite calculate_step_interval_stepper, calculate_step_interval_move.
  destruct (Z.eq_dec (total_step_count (_current_move (axis w))) 0) as [E|E].
  - rewrite (direct_step_idle (after_read w) E). repeat split.
    left. reflexivity.
  - destruct (direct_step_moving (after_read w) E) as (Hs & _ & Hp & _).
    rewrite Hs, Hp. cbn [after_read axis]. split; [reflexivity|].
    split; [|right; split; [exact E | reflexivity]].
    unfold LinearAxis_direct_step. cbn [axis after_read].
    apply Z.eqb_neq in E. rewrite E.
    destruct (stepper2 (axis w));
      match goal with |- context [if ?c then _ else _] => destruct c end;
      reflexivity.
Qed.

Lemma seek_body_inv (polls0 : nat) (s : SeekLoop) :
  seek_inv polls0 s ->
  seek_inv polls0 (fst (stallguard_seek_body env s)).
Proof.
  intros (Hsane & Hoff & Hon).
  destruct (timed_step_plan (seek_world s)) as (Hg & Hpolls & Hplan).
  set (w1 := snd (LinearAxis_timed_step env (seek_world s))) in *.
  assert (Hsane1 : plan_sane (_current_move (axis w1))
                   /\ (check_for_stall s = true ->
                       accel_step_count (_current_move (axis w1))
                       <= steps_taken (_current_move (axis w1)))).
  { destruct Hplan as [-> | [Hnz ->]]; [split; assumption|].
    destruct (plan_after_step_sane _ Hsane Hnz) as [H1 H2].
    split; [exact H1 | intros Hc; apply H2, Hon, Hc]. }
  destruct Hsane1 as [Hsane1 Hon1].
  rewrite seek_body_unfold. fold w1. unfold armed_world, arms, seek_inv.
  destruct (_ =? _) eqn:Earm; cbn [orb fst seek_world check_for_stall].
  - apply Z.eqb_eq in Earm. repeat split; try discriminate;
      try exact (proj1 Hsane1); try apply Hsane1.
    intros _. cbn. lia.
  - destruct (check_for_stall s) eqn:Ec;
      cbn [fst seek_world check_for_stall].
    + repeat split; try discriminate;
        try exact (proj1 Hsane1); try apply Hsane1.
      intros _. cbn. apply Hon1. reflexivity.
    + destruct (Hoff eq_refl) as [Hnone Hp].
      repeat split; try discriminate;
        try exact (proj1 Hsane1); try apply Hsane1; congruence.
Qed.

Lemma seek_entry_inv (w : World) (dist_mm : F32.float) :
  seek_inv (stall_polls w) (stallguard_seek_entry env w dist_mm).
Proof.
  unfold seek_inv, stallguard_seek_entry.
  cbn [seek_world check_for_stall].
  rewrite start_move_current, start_move_stepper.
  split; [apply calculate_move_sane|].
  split; [|discriminate]. intros _. split; reflexivity.
Qed.

Lemma seek_reaches_inv (w : World) (dist_mm : F32.float) (s : SeekLoop) :
  seek_reaches env (stallguard_seek_entry env w dist_mm) s ->
  seek_inv (stall_polls w) s.
Proof.
  induction 1 as [|s s' _ IH Hbody]; [apply seek_entry_inv|].
  pose proof (seek_body_inv _ s IH) as H. rewrite Hbody in H. exact H.
Qed.

Lemma seek_reaches_next (s0 s : SeekLoop) :
  seek_reaches env s0 s ->
  snd (stallguard_seek_body env s) = false ->
  seek_reaches env s0 (fst (stallguard_seek_body env s)).
Proof.
  intros Hr Hx. apply (seek_round env s0 s _ Hr).
  destruct (stallguard_seek_body env s) as [s' x]. cbn in *.
  rewrite Hx. reflexivity.
Qed.

End Seek.

(** C5.  At every head of the seek loop: while [check_for_stall] is false
    the stall detector is off and the stall flag has not been read; the
    detector is never on with steps_taken below accel_step_count.  In every
    iteration: the detector is enabled exactly when, after the tick,
    steps_taken == accel_step_count; the flag is read only once that has
    happened; and the loop is left only on a flag read that way. *)
Theorem stall_detection_armed_after_ramp
  (env : Env) (w : World) (dist_mm : F32.float) (s : SeekLoop) :
  seek_reaches env (stallguard_seek_entry env w dist_mm) s ->
  let plan := fun x : World => _current_move (axis x) in
  let detector := fun x : World => Stepper.stallguard (stepper (axis x)) in
  let w1 := snd (LinearAxis_timed_step env (seek_world s)) in
  let r := stallguard_seek_body env s in
  let w' := seek_world (fst r) in
  (check_for_stall s = false ->
   detector (seek_world s) = None
   /\ stall_polls (seek_world s) = stall_polls w)
  /\ (detector (seek_world s) <> None ->
      accel_step_count (plan (seek_world s))
      <= steps_taken (plan (seek_world s)))
  /\ check_for_stall (fst r) = arms w1 || check_for_stall s
  /\ trace w'
     = (if check_for_stall (fst r)
        then [EvStalled (stall_flag env (stall_polls (seek_world s)))]
        else [])
       ++ (if arms w1
           then [EvStallguard (Some (homing_sensitivity (axis w1)))]
           else [])
       ++ trace w1
  /\ snd r = check_for_stall (fst r)
             && stall_flag env (stall_polls (seek_world s))
  /\ (detector w' <> None ->
      accel_step_count (plan w') <= steps_taken (plan w'))
  /\ (snd r = true ->
      check_for_stall (fst r) = true
      /\ accel_step_count (plan w') <= steps_taken (plan w')).
Proof.
  intros Hreach plan detector w1 r w'.
  pose proof (seek_reaches_inv env w dist_mm s Hreach) as Hinv.
  pose proof (seek_body_inv env _ s Hinv) as Hinv'.
  fold r in Hinv'.
  destruct Hinv as (_ & Hoff & Hon).
  destruct Hinv' as (_ & Hoff' & Hon').
  destruct (timed_step_plan env (seek_world s)) as (_ & Hpolls & _).
  fold w1 in Hpolls.
  assert (Hr : r = if arms w1 || check_for_stall s
                   then (mkSeek (snd (Stepper_stalled env (armed_world w1))) true,
                         stall_flag env (stall_polls w1))
                   else (mkSeek (armed_world w1) false, false))
    by apply seek_body_unfold.
  assert (Hc : check_for_stall (fst r) = arms w1 || check_for_stall s)
    by (rewrite Hr; destruct (arms w1 || check_for_stall s); reflexivity).
  assert (Hexit : snd r = check_for_stall (fst r)
                          && stall_flag env (stall_polls (seek_world s))).
  { rewrite Hc, Hr, <- Hpolls.
    destruct (arms w1 || check_for_stall s); reflexivity. }
  split; [exact Hoff|]. split.
  { intros Hdet. apply Hon.
    destruct (check_for_stall s); [reflexivity|].
    destruct (Hoff eq_refl) as [Hnone _]. contradiction. }
  split; [exact Hc|]. split.
  { unfold w'. rewrite Hc, Hr, <- Hpolls. unfold armed_world.
    destruct (arms w1); destruct (check_for_stall s); reflexivity. }
  split; [exact Hexit|]. split.
  { intros Hdet. apply Hon'.
    destruct (check_for_stall (fst r)); [reflexivity|].
    destruct (Hoff' eq_refl) as [Hnone _]. contradiction. }
  intros Hx. rewrite Hexit in Hx. apply andb_true_iff in Hx.
  destruct Hx as [Hx _]. split; [exact Hx | apply Hon', Hx].
Qed.

Lemma stall_detection_armed_after_ramp_witness :
  let body := fun s => fst (stallguard_seek_body bench_env s) in
  let s0 := stallguard_seek_entry bench_env (world_of seek_axis)
              (F32.of_Z (-20)) in
  let s4 := iterate body 4 s0 in
  let r := stallguard_seek_body bench_env s4 in
  accel_step_count (_current_move (axis (seek_world s0))) = 5
  /\ steps_taken (_current_move (axis (seek_world s4))) = 4
  /\ check_for_stall s4 = false
  /\ Stepper.stallguard (stepper (axis (seek_world s4))) = None
  /\ stall_polls (seek_world s4) = O
  /\ check_for_stall (fst r) = true
  /\ snd r = false.
Proof.
  intros body s0 s4 r.
  assert (Hreach : seek_reaches bench_env s0 s4).
  { unfold s4. cbn [iterate]. unfold body.
    repeat (apply seek_reaches_next; [|vm_compute; reflexivity]).
    apply seek_entry. }
  destruct (stall_detection_armed_after_ramp bench_env (world_of seek_axis)
              (F32.of_Z (-20)) s4 Hreach)
    as (Hoff & _ & Hc & _ & Hexit & _).
  assert (Hc4 : check_for_stall s4 = false) by (vm_compute; reflexivity).
  destruct (Hoff Hc4) as [Hnone Hpolls].
  split; [vm_compute; reflexivity|].
  split; [vm_compute; reflexivity|].
  split; [exact Hc4|]. split; [exact Hnone|]. split; [exact Hpolls|].
  split.
  - fold r in Hc. rewrite Hc. vm_compute. reflexivity.
  - fold r in Hexit. rewrite Hexit. vm_compute. reflexivity.
Defined.

(** The plan depends on the resolution, the kinematics and the step
    counter only. *)
Lemma calculate_move_ext (m m' : LinearAxis) (dest_mm : F32.float) :
  steps_per_mm m = steps_per_mm m' ->
  velocity_mm_s m = velocity_mm_s m' ->
  acceleration_mm_s2 m = acceleration_mm_s2 m' ->
  Stepper.total_steps (stepper m) = Stepper.total_steps (stepper m') ->
  LinearAxis_calculate_move m dest_mm = LinearAxis_calculate_move m' dest_mm.
Proof.
  intros Hs Hv Ha Ht.
  unfold LinearAxis_calculate_move, mm_to_steps, ramp_steps.
  rewrite Hs, Hv, Ha, Ht. reflexivity.
Qed.

Lemma seek_entry_plan (env : Env) (w : World) (dist_mm : F32.float) :
  stallguard_seek_entry env w dist_mm
  = mkSeek (LinearAxis_start_move env (Stepper_disable_stallguard w)
              (LinearAxis_calculate_move (axis w) dist_mm)) false.
Proof.
  unfold stallguard_seek_entry.
  rewrite (calculate_move_ext (axis (Stepper_disable_stallguard w)) (axis w))
    by reflexivity.
  reflexivity.
Qed.

(** ** A seek that never sees a stall *)

Section NoStall.

Variable env : Env.
Hypothesis never_stalled : forall k, stall_flag env k = false.

Lemma seek_body_continues (s : SeekLoop) :
  snd (stallguard_seek_body env s) = false.
Proof.
  rewrite seek_body_unfold.
  destruct (arms _ || check_for_stall s); [apply never_stalled | reflexivity].
Qed.

Lemma seek_loop_never_exits (fuel : nat) : forall s,
  stallguard_seek_loop env fuel s = None.
Proof.
  induction fuel as [|fuel IH]; intros s; [reflexivity|].
  cbn [stallguard_seek_loop].
  pose proof (seek_body_continues s) as Hx.
  destruct (stallguard_seek_body env s) as [s' x]. cbn in Hx. subst x.
  apply IH.
Qed.

Lemma seek_never_returns (fuel : nat) (w : World) (dist_mm : F32.float) :
  stallguard_seek env fuel w dist_mm = None.
Proof. unfold stallguard_seek. rewrite seek_loop_never_exits. reflexivity. Qed.

End NoStall.

Section SeekCompletes.

Variable env : Env.

Lemma seek_round_waits (s : SeekLoop) :
  clock env (clock_reads (seek_world s)) < _next_step_at (axis (seek_world s)) ->
  motion (seek_world (seek_round_of env s)) = motion (seek_world s)
  /\ _next_step_at (axis (seek_world (seek_round_of env s)))
     = _next_step_at (axis (seek_world s))
  /\ clock_reads (seek_world (seek_round_of env s))
     = S (clock_reads (seek_world s)).
Proof.
  intros H. destruct (seek_body_motion env s) as (Hm & Ht & Hr).
  destruct (timed_step_waits env (seek_world s) H) as (Hm' & Ht' & Hr').
  unfold seek_round_of. rewrite Hm, Ht, Hr. auto.
Qed.

Lemma seek_round_fires (s : SeekLoop) :
  _next_step_at (axis (seek_world s)) <= clock env (clock_reads (seek_world s)) ->
  motion (seek_world (seek_round_of env s))
  = motion (LinearAxis_direct_step (seek_world s)).
Proof.
  intros H. destruct (seek_body_motion env s) as (Hm & _ & _).
  unfold seek_round_of. rewrite Hm. apply timed_step_motion, H.
Qed.

(** With an advancing clock the move of a seek ends at its terminus,
    whatever the stall flag does. *)
Lemma seek_move_completes (w : World) (dist_mm : F32.float) :
  (forall k, clock env k < clock env (S k)) ->
  let mv := LinearAxis_calculate_move (axis w) dist_mm in
  0 <= total_step_count mv ->
  exists n,
    arrived (Stepper.total_steps (stepper (axis w))) (direction mv) mv
      (seek_world (iterate (seek_round_of env) n
                     (stallguard_seek_entry env w dist_mm))).
Proof.
  intros Hclock mv Ht.
  destruct (calculate_move_total (axis w) dist_mm) as [_ Hs].
  destruct (calculate_move_sane (axis w) dist_mm) as (_ & Hmax & _).
  fold mv in Hs, Hmax.
  assert (Hd : Int.wrap8 (direction mv) = direction mv).
  { apply wrap8_id. unfold mv. rewrite calculate_move_direction_eq.
    destruct (_ <? 0); lia. }
  pose proof (start_move_progress env (Stepper_disable_stallguard w) mv Hs Ht)
    as Hp.
  rewrite Hd in Hp.
  change (Stepper.total_steps (stepper (axis (Stepper_disable_stallguard w))))
    with (Stepper.total_steps (stepper (axis w))) in Hp.
  rewrite seek_entry_plan. fold mv.
  set (s0 := mkSeek (LinearAxis_start_move env (Stepper_disable_stallguard w) mv)
               false).
  change (progress (Stepper.total_steps (stepper (axis w))) (direction mv) mv
            (axis (seek_world s0))) in Hp.
  exact (loop_completes env SeekLoop seek_world (seek_round_of env) Hclock
           seek_round_waits seek_round_fires _ _ mv Hmax s0 Hp).
Qed.

End SeekCompletes.

(** C3 (as amended).  If the driver's stalled() flag never becomes true,
    no iteration of the seek loop breaks: [stallguard_seek] and
    [LinearAxis_sensorless_home] never return, whatever the number of
    iterations granted.  The seek move itself does complete when the clock
    advances: after finitely many iterations the axis is idle at the
    terminus direction * total_step_count of the homing travel, and the loop
    goes on polling. *)
Theorem seek_without_stall_never_returns (env : Env) (w : World) :
  (forall k, stall_flag env k = false) ->
  let w1 := with_axis homing_entry w in
  let dist_mm := homing_travel (axis w1) (homing_distance_mm (axis w1)) in
  let mv := LinearAxis_calculate_move (axis w1) dist_mm in
  (forall s, snd (stallguard_seek_body env s) = false)
  /\ (forall fuel, stallguard_seek env fuel w1 dist_mm = None)
  /\ (forall fuel, LinearAxis_sensorless_home env fuel w = None)
  /\ ((forall k, clock env k < clock env (S k)) ->
      0 <= total_step_count mv ->
      exists n,
        let s := iterate (seek_round_of env) n
                   (stallguard_seek_entry env w1 dist_mm) in
        LinearAxis_is_moving (axis (seek_world s)) = false
        /\ Stepper.total_steps (stepper (axis (seek_world s)))
           = direction mv * total_step_count mv).
Proof.
  intros Hquiet w1 dist_mm mv.
  split; [apply seek_body_continues, Hquiet|].
  split; [intros fuel; apply seek_never_returns, Hquiet|].
  split.
  - intros fuel. unfold LinearAxis_sensorless_home.
    fold w1. fold dist_mm.
    rewrite (seek_never_returns env Hquiet fuel w1 dist_mm). reflexivity.
  - intros Hclock Ht.
    destruct (seek_move_completes env w1 dist_mm Hclock Ht) as (n & Hidle & Hpos).
    exists n. split; [exact Hidle|]. rewrite Hpos. reflexivity.
Qed.

Lemma seek_without_stall_never_returns_witness :
  let w := world_of seek_axis in
  (forall fuel, LinearAxis_sensorless_home quiet_env fuel w = None)
  /\ exists n,
       let s := iterate (seek_round_of quiet_env) n
                  (stallguard_seek_entry quiet_env (with_axis homing_entry w)
                     (F32.of_Z (-20))) in
       LinearAxis_is_moving (axis (seek_world s)) = false
       /\ Stepper.total_steps (stepper (axis (seek_world s))) = -20.
Proof.
  intros w.
  destruct (seek_without_stall_never_returns quiet_env w (fun _ => eq_refl))
    as (_ & _ & Hhome & Hmove).
  split; [exact Hhome|].
  destruct Hmove as (n & Hidle & Hpos).
  - intros k. cbn [clock quiet_env]. lia.
  - vm_compute. discriminate.
  - exists n. split; [exact Hidle|].
    etransitivity; [exact Hpos|]. vm_compute. reflexivity.
Defined.

(** C3 as stated fails: with a stall flag that stays false and a clock that
    advances by 10 ms per reading, the 20-step seek of [seek_axis] has not
    returned after 1000 iterations, and no number of iterations makes
    [LinearAxis_sensorless_home] return. *)
Lemma seek_without_stall_counterexample :
  let w := world_of seek_axis in
  (forall k, stall_flag quiet_env k = false)
  /\ total_step_count
       (LinearAxis_calculate_move (homing_entry seek_axis) (F32.of_Z (-20)))
     = 20
  /\ LinearAxis_sensorless_home quiet_env 1000 w = None
  /\ ~ (exists fuel w', LinearAxis_sensorless_home quiet_env fuel w = Some w').
Proof.
  intros w. split; [reflexivity|].
  split; [vm_compute; reflexivity|].
  split; [vm_compute; reflexivity|].
  intros (fuel & w' & H). unfold LinearAxis_sensorless_home in H.
  rewrite (seek_never_returns quiet_env (fun _ => eq_refl)) in H.
  discriminate H.
Qed.

(** ** Homing *)

Lemma settings_split (m m' : LinearAxis) :
  settings m = settings m' ->
  fixed_settings m = fixed_settings m' /\ kinematics m = kinematics m'.
Proof.
  intros H. split; [exact (f_equal fst H) | exact (f_equal snd H)].
Qed.

Section Frame.

Variable env : Env.

Lemma direct_step_settings (w : World) :
  settings (axis (LinearAxis_direct_step w)) = settings (axis w).
Proof.
  unfold LinearAxis_direct_step.
  destruct (total_step_count (_current_move (axis w)) =? 0); [reflexivity|].
  destruct w as [m r p q t].
  destruct m as [nm s1 s2 spm v a hd hdist hb hv ha hs es mv0 si nx].
  destruct s2; cbn;
    destruct (Int.wrap32 (steps_taken mv0 + 1) =? total_step_count mv0);
    reflexivity.
Qed.

Lemma timed_step_settings (w : World) :
  settings (axis (snd (LinearAxis_timed_step env w))) = settings (axis w).
Proof.
  destruct (Z.leb_spec (_next_step_at (axis w)) (clock env (clock_reads w))).
  - rewrite timed_step_fire by assumption.
    cbn [snd with_axis axis after_read].
    exact (direct_step_settings (after_read w)).
  - rewrite timed_step_wait by assumption. reflexivity.
Qed.








End Frame.




(** ** The scenarios of the specification

    80 steps/mm, 100 mm/s, 1000 mm/s²; the plans are those the
    specification lists. *)

Example scenario_short_move :
  LinearAxis_calculate_move (scenario_axis 0) (F32.of_Z 10)
  = mkMovement 1 400 400 0 800 0.
Proof. vm_compute. reflexivity. Qed.

Example scenario_long_move :
  LinearAxis_calculate_move (scenario_axis 0) (F32.of_Z 50)
  = mkMovement 1 400 400 3200 4000 0.
Proof. vm_compute. reflexivity. Qed.

Example scenario_no_move :
  LinearAxis_calculate_move (scenario_axis 0) (F32.of_Z 0)
  = mkMovement 1 0 0 0 0 0.
Proof. vm_compute. reflexivity. Qed.

Example scenario_negative_move :
  LinearAxis_calculate_move (scenario_axis 0) (F32.of_Z (-1))
  = mkMovement (-1) 40 40 0 80 0.
Proof. vm_compute. reflexivity. Qed.

Example scenario_move_back :
  LinearAxis_calculate_move (scenario_axis 1000) (F32.of_Z 10)
  = mkMovement (-1) 100 100 0 200 0.
Proof. vm_compute. reflexivity. Qed.

Example scenario_single_step :
  LinearAxis_calculate_move (scenario_axis 0) (F32.div F32.one (F32.of_Z 80))
  = mkMovement 1 0 1 0 1 0.
Proof. vm_compute. reflexivity. Qed.

Example scenario_round_trip :
  LinearAxis_get_position_mm
    (LinearAxis_set_position_mm (scenario_axis 0) (F32.of_Z 10))
  = F32.of_Z 10.
Proof. vm_compute. reflexivity. Qed.

Example scenario_endstop_home :
  option_map (fun w => (Stepper.total_steps (stepper (axis w)),
                        LinearAxis_get_position_mm (axis w),
                        LinearAxis_is_moving (axis w)))
    (LinearAxis_endstop_home bench_env 60 (world_of seek_axis))
  = Some (0, F32.zero, false).
Proof. vm_compute. reflexivity. Qed.

(** * Further properties of the motion core *)

(** ** Plans *)

(** X1.  Within the [int32_t] range neither ramp of a plan is longer than
    the ideal ramp, and the two ramps differ by at most one step (the
    deceleration takes the odd step of a short move). *)
Theorem plan_ramps_within_ideal (m : LinearAxis) (dest_mm : F32.float) :
  F32.gt (steps_per_mm m) F32.zero = true ->
  F32.gt (velocity_mm_s m) F32.zero = true ->
  F32.gt (acceleration_mm_s2 m) F32.zero = true ->
  - Int.INT32_MAX <= step_delta m dest_mm <= Int.INT32_MAX ->
  Int.INT32_MIN <= Z.abs (step_delta m dest_mm) - 2 * ramp_steps m ->
  let mv := LinearAxis_calculate_move m dest_mm in
  accel_step_count mv <= ramp_steps m
  /\ decel_step_count mv <= ramp_steps m
  /\ accel_step_count mv <= decel_step_count mv <= accel_step_count mv + 1.
Proof.
  intros Hs Hv Ha Hd Hc mv. unfold mv.
  pose proof (ramp_steps_range m Hs Hv Ha) as Hr.
  rewrite (calculate_move_exact m dest_mm Hd Hr Hc).
  fold (step_delta m dest_mm).
  set (total := Z.abs (step_delta m dest_mm)) in *.
  assert (0 <= total) by (unfold total; lia).
  pose proof (Z.div_mod total 2 ltac:(lia)) as Hdm.
  pose proof (Z.mod_pos_bound total 2 ltac:(lia)) as Hmod.
  destruct (total - 2 * ramp_steps m <=? 0) eqn:Hshort;
    cbn [accel_step_count decel_step_count].
  - apply Z.leb_le in Hshort. lia.
  - lia.
Qed.

Lemma plan_ramps_within_ideal_witness :
  let mv := LinearAxis_calculate_move slow_axis (F32.of_Z 11) in
  ramp_steps slow_axis = 50
  /\ accel_step_count mv <= 50
  /\ decel_step_count mv <= 50.
Proof.
  intros mv.
  assert (Hr : ramp_steps slow_axis = 50) by (vm_compute; reflexivity).
  assert (Hd : - Int.INT32_MAX <= step_delta slow_axis (F32.of_Z 11)
               <= Int.INT32_MAX) by (vm_compute; split; discriminate).
  assert (Hc : Int.INT32_MIN <= Z.abs (step_delta slow_axis (F32.of_Z 11))
                                 - 2 * ramp_steps slow_axis)
    by (vm_compute; discriminate).
  destruct (plan_ramps_within_ideal slow_axis (F32.of_Z 11)
              eq_refl eq_refl eq_refl Hd Hc) as (H1 & H2 & _).
  rewrite Hr in H1, H2. split; [reflexivity|]. split; assumption.
Defined.

Lemma mm_to_steps_ext (m m' : LinearAxis) (mm : F32.float) :
  steps_per_mm m = steps_per_mm m' -> mm_to_steps m mm = mm_to_steps m' mm.
Proof. intros H. unfold mm_to_steps. rewrite H. reflexivity. Qed.

(** X2.  A move to the position just set is empty: after
    [set_position_mm x] the plan for destination [x] has no steps (and the
    direction of a zero difference, +1), whatever the configuration. *)
Theorem move_to_current_position_is_empty (m : LinearAxis) (x : F32.float) :
  let mv := LinearAxis_calculate_move (LinearAxis_set_position_mm m x) x in
  total_step_count mv = 0
  /\ direction mv = 1
  /\ steps_taken mv = 0
  /\ LinearAxis_is_moving (set_current_move mv m) = false.
Proof.
  intros mv.
  destruct (calculate_move_total (LinearAxis_set_position_mm m x) x)
    as [Ht Hs].
  assert (Hd : step_delta (LinearAxis_set_position_mm m x) x = 0).
  { unfold step_delta.
    rewrite (mm_to_steps_ext (LinearAxis_set_position_mm m x) m x eq_refl).
    change (Stepper.total_steps (stepper (LinearAxis_set_position_mm m x)))
      with (mm_to_steps m x).
    lia. }
  fold mv in Ht, Hs. rewrite Hd in Ht.
  change (Int.abs (Int.wrap32 0)) with 0 in Ht.
  split; [exact Ht|]. split.
  - unfold mv. rewrite calculate_move_direction_eq, Hd. reflexivity.
  - split; [exact Hs|]. unfold LinearAxis_is_moving.
    cbn [_current_move set_current_move]. rewrite Ht. reflexivity.
Qed.

(** ** Runs *)

Lemma pulses_pulse (b : bool) (t : list Event) :
  pulses (EvPulse b :: t) = pulses t + 1.
Proof. unfold pulses. cbn [filter is_pulse length]. lia. Qed.

Section Runs.

Variable env : Env.
Variables (pulses0 : Z) (mv : LinearAxisMovement).
Hypothesis total_fits : total_step_count mv <= Int.INT32_MAX.

Lemma direct_step_run_state (w : World) :
  run_state pulses0 mv w -> run_state pulses0 mv (LinearAxis_direct_step w).
Proof.
  intros [(k & Hk & Hmv & Hp) | (Hidle & Hs & Hp)].
  2:{ rewrite (direct_step_idle w Hidle). right. auto. }
  destruct (direct_step_moving w) as (_ & _ & Hplan & Htrace).
  { rewrite Hmv. cbn [total_step_count set_steps_taken]. lia. }
  unfold run_state. rewrite Hplan, Htrace, Hmv, pulses_pulse, Hp.
  unfold plan_after_step.
  cbn [steps_taken total_step_count set_steps_taken].
  rewrite wrap32_id by (unfold Int.INT32_MIN, Int.INT32_MAX in *; lia).
  destruct (k + 1 =? total_step_count mv) eqn:E.
  - apply Z.eqb_eq in E. right. cbn. lia.
  - apply Z.eqb_neq in E. left. exists (k + 1).
    cbn [set_steps_taken]. repeat split; lia.
Qed.

Lemma timed_step_run_state (w : World) :
  run_state pulses0 mv w ->
  run_state pulses0 mv (snd (LinearAxis_timed_step env w)).
Proof.
  intros H.
  destruct (Z.leb_spec (_next_step_at (axis w)) (clock env (clock_reads w))).
  - rewrite timed_step_fire by assumption.
    exact (direct_step_run_state (after_read w) H).
  - rewrite timed_step_wait by assumption. exact H.
Qed.

Lemma timed_steps_run_state (n : nat) (w : World) :
  run_state pulses0 mv w -> run_state pulses0 mv (timed_steps env n w).
Proof.
  revert w. induction n as [|n IH]; intros w H; [exact H|].
  apply IH, timed_step_run_state, H.
Qed.

End Runs.

Lemma start_move_run_state (env : Env) (w : World) (mv : LinearAxisMovement) :
  steps_taken mv = 0 ->
  0 <= total_step_count mv ->
  run_state (pulses (trace w)) mv (LinearAxis_start_move env w mv).
Proof.
  intros Hs Ht. unfold run_state.
  rewrite start_move_current, start_move_trace.
  destruct (Z.eq_dec (total_step_count mv) 0) as [E|E].
  - right. rewrite E. repeat split; [exact Hs | lia].
  - left. exists 0. rewrite <- Hs, set_steps_taken_same. repeat split; lia.
Qed.

(** X3.  A run emits one pulse per step of the plan and never more: while
    the move is in flight the pulses emitted since [start_move] equal
    steps_taken; once the axis is idle they equal total_step_count. *)
Theorem run_emits_one_pulse_per_step
  (env : Env) (w : World) (mv : LinearAxisMovement) (n : nat) :
  steps_taken mv = 0 ->
  0 <= total_step_count mv <= Int.INT32_MAX ->
  let wn := timed_steps env n (LinearAxis_start_move env w mv) in
  let emitted := pulses (trace wn) - pulses (trace w) in
  0 <= emitted <= total_step_count mv
  /\ (LinearAxis_is_moving (axis wn) = true ->
      emitted = steps_taken (_current_move (axis wn)))
  /\ (LinearAxis_is_moving (axis wn) = false ->
      emitted = total_step_count mv).
Proof.
  intros Hs [Ht0 Ht] wn emitted.
  pose proof (timed_steps_run_state env _ mv Ht n _
                (start_move_run_state env w mv Hs Ht0)) as H.
  fold wn in H. unfold emitted, LinearAxis_is_moving.
  destruct H as [(k & Hk & Hmv & Hp) | (Hidle & Hz & Hp)].
  - rewrite Hmv, Hp. cbn [total_step_count steps_taken set_steps_taken].
    split; [lia|]. split; [intros _; lia|].
    intros Hc. rewrite Z.gtb_ltb in Hc. apply Z.ltb_ge in Hc. lia.
  - rewrite Hidle, Hp. split; [lia|]. split; [discriminate | intros _; lia].
Qed.

Lemma run_emits_one_pulse_per_step_witness :
  let w := world_of (scenario_axis 1000) in
  let mv := mkMovement (-1) 3 4 0 7 0 in
  let run := fun n => timed_steps quiet_env n
                        (LinearAxis_start_move quiet_env w mv) in
  pulses (trace (run 4%nat)) = 4 /\ pulses (trace (run 20%nat)) = 7.
Proof.
  intros w mv run.
  assert (Ht : 0 <= total_step_count mv <= Int.INT32_MAX)
    by (vm_compute; split; discriminate).
  destruct (run_emits_one_pulse_per_step quiet_env w mv 4 eq_refl Ht)
    as (_ & H4 & _).
  destruct (run_emits_one_pulse_per_step quiet_env w mv 20 eq_refl Ht)
    as (_ & _ & H20).
  split.
  - specialize (H4 eq_refl). fold (run 4%nat) in H4.
    change (pulses (trace w)) with 0 in H4.
    rewrite Z.sub_0_r in H4. rewrite H4. vm_compute. reflexivity.
  - specialize (H20 eq_refl). fold (run 20%nat) in H20.
    change (pulses (trace w)) with 0 in H20.
    rewrite Z.sub_0_r in H20. exact H20.
Defined.

(** X4.  During a run steps_taken stays between 0 and total_step_count,
    and one tick either leaves the plan alone, or takes exactly one step,
    or - on the last step - replaces the plan by the zero plan. *)
Theorem steps_taken_bounded
  (env : Env) (w : World) (mv : LinearAxisMovement) (n : nat) :
  steps_taken mv = 0 ->
  0 <= total_step_count mv <= Int.INT32_MAX ->
  let wn := timed_steps env n (LinearAxis_start_move env w mv) in
  let p := _current_move (axis wn) in
  let p' := _current_move (axis (snd (LinearAxis_timed_step env wn))) in
  0 <= steps_taken p <= total_step_count mv
  /\ (LinearAxis_is_moving (axis wn) = true ->
      steps_taken p < total_step_count p
      /\ total_step_count p = total_step_count mv)
  /\ (p' = p
      \/ (steps_taken p' = steps_taken p + 1
          /\ total_step_count p' = total_step_count p)
      \/ (p' = zero_plan /\ steps_taken p + 1 = total_step_count mv)).
Proof.
  intros Hs [Ht0 Ht] wn p p'.
  pose proof (timed_steps_run_state env _ mv Ht n _
                (start_move_run_state env w mv Hs Ht0)) as H.
  fold wn in H.
  destruct (timed_step_plan env wn) as (_ & _ & Hplan).
  subst p p'. unfold LinearAxis_is_moving.
  destruct H as [(k & Hk & Hmv & _) | (Hidle & Hz & _)].
  - rewrite Hmv in *. cbn [total_step_count steps_taken set_steps_taken].
    split; [lia|]. split; [intros _; lia|].
    destruct Hplan as [-> | [_ ->]]; [left; reflexivity | right].
    unfold plan_after_step.
    cbn [steps_taken total_step_count set_steps_taken].
    rewrite wrap32_id by (unfold Int.INT32_MIN, Int.INT32_MAX in *; lia).
    destruct (k + 1 =? total_step_count mv) eqn:E.
    + apply Z.eqb_eq in E. right. split; [reflexivity | exact E].
    + left. split; reflexivity.
  - rewrite Hz, Hidle. split; [lia|]. split; [discriminate|].
    destruct Hplan as [-> | [Hnz _]]; [left; reflexivity | contradiction].
Qed.

Lemma steps_taken_bounded_witness :
  let w := world_of (scenario_axis 1000) in
  let mv := mkMovement (-1) 3 4 0 7 0 in
  let w6 := timed_steps quiet_env 6 (LinearAxis_start_move quiet_env w mv) in
  steps_taken (_current_move (axis w6)) = 6
  /\ _current_move (axis (snd (LinearAxis_timed_step quiet_env w6)))
     = zero_plan.
Proof.
  intros w mv w6.
  assert (Ht : 0 <= total_step_count mv <= Int.INT32_MAX)
    by (vm_compute; split; discriminate).
  destruct (steps_taken_bounded quiet_env w mv 6 eq_refl Ht) as (_ & _ & H).
  assert (H6 : steps_taken (_current_move (axis w6)) = 6)
    by (vm_compute; reflexivity).
  split; [exact H6|].
  fold w6 in H. destruct H as [H | [[H _] | [H _]]].
  - exfalso. vm_compute in H. discriminate H.
  - exfalso. vm_compute in H. discriminate H.
  - exact H.
Defined.

(** A run of a plan whose direction and total are the sign and the
    magnitude of [delta] displaces the step counter by [delta]. *)
Lemma run_displaces (env : Env) (w : World) (mv : LinearAxisMovement)
      (delta : Z) :
  steps_taken mv = 0 ->
  total_step_count mv = Z.abs delta ->
  direction mv = (if delta <? 0 then -1 else 1) ->
  Z.abs delta <= Int.INT32_MAX ->
  (forall n,
     LinearAxis_is_moving
       (axis (timed_steps env n (LinearAxis_start_move env w mv))) = false ->
     Stepper.total_steps
       (stepper (axis (timed_steps env n (LinearAxis_start_move env w mv))))
     = Stepper.total_steps (stepper (axis w)) + delta)
  /\ ((forall k, clock env k < clock env (S k)) ->
      exists n,
        LinearAxis_is_moving
          (axis (timed_steps env n (LinearAxis_start_move env w mv))) = false).
Proof.
  intros Hs Ht Hdir Hmax.
  assert (Hmax' : total_step_count mv <= Int.INT32_MAX) by lia.
  assert (H0 : 0 <= total_step_count mv) by lia.
  pose proof (start_move_progress env w mv Hs H0) as Hp.
  rewrite wrap8_id in Hp by (rewrite Hdir; destruct (delta <? 0); lia).
  split.
  - intros n Hidle.
    pose proof (timed_steps_progress env _ _ mv Hmax' n _ Hp) as Hn.
    destruct Hn as [_ [(k & Hk & Hmv & _) | [_ Hpos]]].
    + unfold LinearAxis_is_moving in Hidle. rewrite Hmv in Hidle.
      cbn [total_step_count set_steps_taken] in Hidle.
      rewrite Z.gtb_ltb in Hidle. apply Z.ltb_ge in Hidle. lia.
    + rewrite Hpos, Hdir, Ht.
      destruct (delta <? 0) eqn:E;
        [apply Z.ltb_lt in E | apply Z.ltb_ge in E]; lia.
  - intros Hclock.
    destruct (loop_completes env World (fun w => w)
                (fun w => snd (LinearAxis_timed_step env w)) Hclock
                (timed_step_waits env) (timed_step_motion env)
                _ _ mv Hmax' _ Hp) as (j & Hj & _).
    exists j. exact Hj.
Qed.

(** X5.  A move planned within the [int32_t] range and run until the axis
    is idle ends exactly on the step target of its destination, whatever
    the clock did in between; with an advancing clock it does end. *)
Theorem move_reaches_destination
  (env : Env) (w : World) (dest_mm : F32.float) :
  - Int.INT32_MAX <= step_delta (axis w) dest_mm <= Int.INT32_MAX ->
  (forall n,
     LinearAxis_is_moving
       (axis (timed_steps env n
                (LinearAxis_start_move env w
                   (LinearAxis_calculate_move (axis w) dest_mm)))) = false ->
     Stepper.total_steps
       (stepper (axis (timed_steps env n
                         (LinearAxis_start_move env w
                            (LinearAxis_calculate_move (axis w) dest_mm)))))
     = mm_to_steps (axis w) dest_mm)
  /\ ((forall k, clock env k < clock env (S k)) ->
      exists n,
        LinearAxis_is_moving
          (axis (timed_steps env n
                   (LinearAxis_start_move env w
                      (LinearAxis_calculate_move (axis w) dest_mm)))) = false).
Proof.
  intros Hd.
  destruct (calculate_move_total (axis w) dest_mm) as [Ht Hs].
  pose proof (calculate_move_direction_eq (axis w) dest_mm) as Hdir.
  rewrite wrap32_id in Ht, Hdir
    by (unfold Int.INT32_MIN, Int.INT32_MAX in *; lia).
  rewrite (abs_id _ Hd) in Ht.
  destruct (run_displaces env w _ _ Hs Ht Hdir) as [H1 H2].
  { unfold Int.INT32_MAX in *. lia. }
  split; [|exact H2].
  intros n Hidle. rewrite (H1 n Hidle). unfold step_delta. lia.
Qed.

Lemma move_reaches_destination_witness :
  let w := world_of (scenario_axis 1000) in
  let w0 := LinearAxis_start_move quiet_env w
              (LinearAxis_calculate_move (axis w) (F32.of_Z 10)) in
  Stepper.total_steps (stepper (axis (timed_steps quiet_env 200 w0))) = 800.
Proof.
  intros w w0.
  assert (Hd : - Int.INT32_MAX <= step_delta (axis w) (F32.of_Z 10)
               <= Int.INT32_MAX) by (vm_compute; split; discriminate).
  destruct (move_reaches_destination quiet_env w (F32.of_Z 10) Hd) as [H _].
  assert (Hidle : LinearAxis_is_moving (axis (timed_steps quiet_env 200 w0))
                  = false) by (vm_compute; reflexivity).
  etransitivity; [exact (H 200%nat Hidle)|]. vm_compute. reflexivity.
Defined.

(** ** Ticks *)

(** X6.  A call of [LinearAxis_timed_step] before the deadline does
    nothing but read the clock; any call emits at most one pulse, and
    emits one only when it returns true on a plan with steps left. *)
Theorem tick_emits_at_most_one_pulse (env : Env) (w : World) :
  let r := LinearAxis_timed_step env w in
  (fst r = false -> snd r = after_read w)
  /\ (trace (snd r) = trace w
      \/ (fst r = true
          /\ total_step_count (_current_move (axis w)) <> 0
          /\ exists both, trace (snd r) = EvPulse both :: trace w))
  /\ pulses (trace w) <= pulses (trace (snd r)) <= pulses (trace w) + 1.
Proof.
  intros r. unfold r.
  destruct (Z.leb_spec (_next_step_at (axis w)) (clock env (clock_reads w)))
    as [Hdue|Hwait].
  - rewrite (timed_step_fire env w Hdue). cbn [fst snd].
    split; [discriminate|].
    destruct (Z.eq_dec (total_step_count (_current_move (axis w))) 0)
      as [E|E].
    + rewrite (direct_step_idle (after_read w) E).
      split; [left; reflexivity|]. cbn [trace with_axis after_read]. lia.
    + destruct (direct_step_moving (after_read w) E) as (_ & _ & _ & Ht).
      cbn [trace with_axis after_read] in *. rewrite Ht, pulses_pulse.
      split; [|lia]. right. split; [reflexivity|]. split; [exact E|].
      eexists. reflexivity.
  - rewrite (timed_step_wait env w Hwait). cbn [fst snd].
    split; [reflexivity|]. split; [left; reflexivity|].
    cbn [trace after_read]. lia.
Qed.

Lemma to_int64_nonneg (x : F32.float) (z : Z) :
  has_sign false x -> F32.to_int64 x = Some z -> 0 <= z.
Proof.
  unfold F32.to_int64, F32.truncate.
  destruct x as [s|s| |s m e]; intros H Hz; red in H; subst;
    try discriminate.
  - cbn in Hz. injection Hz as <-. lia.
  - destruct (_ && _); [|discriminate]. injection Hz as <-.
    destruct (0 <=? e) eqn:He.
    + change (0 <= Z.pos m * 2 ^ e).
      apply Z.mul_nonneg_nonneg; [lia | apply Z.pow_nonneg; lia].
    + apply Z.leb_gt in He.
      change (0 <= Z.pos m / 2 ^ (- e)).
      apply Z.div_pos; [lia | apply Z.pow_pos_nonneg; lia].
Qed.

(** With a positive resolution the product s_per_step * 10^6 is never
    negative, so a defined cast of it gives an interval that is not
    negative either. *)
Lemma step_interval_nonneg (env : Env) (m : LinearAxis) :
  F32.gt (steps_per_mm m) F32.zero = true ->
  F32.to_int64 (F32.mul (s_per_step m) F32.million) <> None ->
  0 <= _step_interval (LinearAxis_calculate_step_interval env m).
Proof.
  intros Hs Hdef. apply gt_zero_not_negative in Hs.
  assert (Hone : has_sign false F32.one) by exact (of_Z_sign 1).
  assert (Hsign : has_sign false (F32.mul (s_per_step m) F32.million)).
  { apply (mul_sign false false); [|exact (of_Z_sign 1000000)].
    unfold s_per_step.
    destruct (F32.gt (inst_velocity m) F32.zero) eqn:Hv.
    - apply gt_zero_not_negative in Hv. unfold steps_per_s.
      apply (div_sign false false); [exact Hone|].
      apply (div_sign false false); [exact Hv|].
      apply (div_sign false false); assumption.
    - vm_compute. reflexivity. }
  destruct (F32.to_int64 (F32.mul (s_per_step m) F32.million)) as [z|] eqn:Hz;
    [|destruct (Hdef eq_refl)].
  pose proof (to_int64_nonneg _ z Hsign Hz) as Hz0.
  rewrite (step_interval_defined env m z Hz). lia.
Qed.

Lemma direct_step_steps_per_mm (w : World) :
  steps_per_mm (axis (LinearAxis_direct_step w)) = steps_per_mm (axis w).
Proof.
  exact (f_equal (fun s => fst (fst (fst s))) (direct_step_settings w)).
Qed.

(** X7.  With a positive resolution, a tick that fires at a state where
    the cast of s_per_step * 10^6 is defined re-arms the deadline between 0
    and 5000 µs after the clock reading it takes for that purpose: the
    deadline is then never put into the past of that reading nor more than
    5 ms ahead of it.  Without the condition on the cast only the upper
    bound remains. *)
Theorem deadline_rearmed_within_5ms (env : Env) (w : World) :
  F32.gt (steps_per_mm (axis w)) F32.zero = true ->
  _next_step_at (axis w) <= clock env (clock_reads w) ->
  F32.to_int64
    (F32.mul (s_per_step (axis (LinearAxis_direct_step w))) F32.million)
  <> None ->
  let w' := snd (LinearAxis_timed_step env w) in
  let now := clock env (S (clock_reads w)) in
  0 <= _step_interval (axis w') <= 5000
  /\ _next_step_at (axis w') = now + _step_interval (axis w')
  /\ now <= _next_step_at (axis w') <= now + 5000
  /\ clock_reads w' = S (S (clock_reads w)).
Proof.
  intros Hs Hdue Hdef w' now. unfold w'.
  rewrite (timed_step_fire env w Hdue).
  cbn [snd with_axis axis after_read _step_interval _next_step_at
       set_next_step_at clock_reads].
  rewrite (direct_step_axis_ext w (after_read w) eq_refl) in Hdef.
  set (m1 := axis (LinearAxis_direct_step (after_read w))) in *.
  assert (Hs1 : F32.gt (steps_per_mm m1) F32.zero = true)
    by (unfold m1; rewrite direct_step_steps_per_mm; exact Hs).
  pose proof (step_interval_nonneg env m1 Hs1 Hdef) as Hlo.
  pose proof (step_interval_le env m1) as Hhi.
  fold now. rewrite direct_step_reads.
  cbn [clock_reads after_read]. repeat split; lia.
Qed.

Lemma deadline_rearmed_within_5ms_witness :
  let w := LinearAxis_start_move quiet_env (world_of (scenario_axis 0))
             (scenario_plan 0) in
  let w' := snd (LinearAxis_timed_step quiet_env w) in
  _next_step_at (axis w) = 100
  /\ clock quiet_env (clock_reads w) = 10000
  /\ F32.to_int64
       (F32.mul (s_per_step (axis (LinearAxis_direct_step w))) F32.million)
     = Some 2500
  /\ 20000 <= _next_step_at (axis w') <= 25000.
Proof.
  intros w w'.
  assert (Hdue : _next_step_at (axis w) <= clock quiet_env (clock_reads w))
    by (vm_compute; discriminate).
  assert (Hcast : F32.to_int64
                    (F32.mul (s_per_step (axis (LinearAxis_direct_step w)))
                       F32.million) = Some 2500)
    by (vm_compute; reflexivity).
  destruct (deadline_rearmed_within_5ms quiet_env w eq_refl Hdue)
    as (_ & _ & H & _).
  - rewrite Hcast. discriminate.
  - split; [vm_compute; reflexivity|]. split; [vm_compute; reflexivity|].
    split; [exact Hcast | exact H].
Defined.

(** ** Two drivers on one axis *)

Section Slaved.

Variable env : Env.
Variables d gap : Z.

Lemma direct_step_slaved (w : World) :
  slaved d gap (axis w) -> slaved d gap (axis (LinearAxis_direct_step w)).
Proof.
  intros (Hd & s2 & H2 & Hd2 & Hgap).
  destruct (Z.eq_dec (total_step_count (_current_move (axis w))) 0) as [E|E].
  - rewrite (direct_step_idle w E). red. eauto.
  - destruct (direct_step_moving w E) as (Hs & Hs2 & _ & _).
    red. rewrite Hs, Hs2, H2.
    split; [exact Hd|]. exists (Stepper.pulse s2).
    split; [reflexivity|]. split; [exact Hd2|].
    unfold Stepper.pulse.
    cbn [Stepper.set_total_steps Stepper.total_steps]. lia.
Qed.

Lemma timed_step_slaved (w : World) :
  slaved d gap (axis w) ->
  slaved d gap (axis (snd (LinearAxis_timed_step env w))).
Proof.
  intros H.
  destruct (Z.leb_spec (_next_step_at (axis w)) (clock env (clock_reads w))).
  - rewrite timed_step_fire by assumption.
    exact (direct_step_slaved (after_read w) H).
  - rewrite timed_step_wait by assumption. exact H.
Qed.

Lemma timed_steps_slaved (n : nat) (w : World) :
  slaved d gap (axis w) -> slaved d gap (axis (timed_steps env n w)).
Proof.
  revert w. induction n as [|n IH]; intros w H; [exact H|].
  apply IH, timed_step_slaved, H.
Qed.

End Slaved.

(** X8.  An axis with a secondary driver keeps both drivers in lockstep:
    [start_move] latches the same direction on both and, through any number
    of ticks, the secondary driver stays exactly as far ahead of the
    primary one as it was before the move. *)
Theorem slaved_drivers_in_lockstep
  (env : Env) (w : World) (mv : LinearAxisMovement) (n : nat)
  (s2 : Stepper.t) :
  stepper2 (axis w) = Some s2 ->
  let wn := timed_steps env n (LinearAxis_start_move env w mv) in
  exists s2',
    stepper2 (axis wn) = Some s2'
    /\ Stepper.direction s2' = Stepper.direction (stepper (axis wn))
    /\ Stepper.total_steps s2' - Stepper.total_steps (stepper (axis wn))
       = Stepper.total_steps s2 - Stepper.total_steps (stepper (axis w)).
Proof.
  intros H2 wn.
  assert (H0 : slaved (Int.wrap8 (direction mv))
                 (Stepper.total_steps s2
                  - Stepper.total_steps (stepper (axis w)))
                 (axis (LinearAxis_start_move env w mv))).
  { red. rewrite start_move_stepper, start_move_stepper2, H2.
    split; [reflexivity|]. eexists. split; [reflexivity|].
    split; reflexivity. }
  destruct (timed_steps_slaved env _ _ n _ H0) as (Hd & s2' & Hs & Hd2 & Hg).
  exists s2'. fold wn in Hs, Hd, Hg. repeat split; congruence.
Qed.

Lemma slaved_drivers_in_lockstep_witness :
  let w := world_of gantry_axis in
  let wn := timed_steps quiet_env 30
              (LinearAxis_start_move quiet_env w (mkMovement (-1) 3 4 0 7 0)) in
  Stepper.total_steps (stepper (axis wn)) = 993
  /\ option_map Stepper.total_steps (stepper2 (axis wn)) = Some 993.
Proof.
  intros w wn.
  destruct (slaved_drivers_in_lockstep quiet_env w (mkMovement (-1) 3 4 0 7 0)
              30 (Stepper.mk 1000 1 None) eq_refl) as (s2' & Hs & _ & Hg).
  fold wn in Hs, Hg.
  assert (H1 : Stepper.total_steps (stepper (axis wn)) = 993)
    by (vm_compute; reflexivity).
  split; [exact H1|]. rewrite Hs. cbn [option_map]. f_equal.
  rewrite H1 in Hg. cbn in Hg. lia.
Defined.

(** ** Seeking an endstop *)

Section EndstopSeek.

Variable env : Env.

Lemma direct_step_pin_reads (w : World) :
  pin_reads (LinearAxis_direct_step w) = pin_reads w.
Proof.
  unfold LinearAxis_direct_step.
  destruct (total_step_count _ =? 0); [reflexivity|].
  destruct (stepper2 (axis w));
    match goal with |- context [if ?c then _ else _] => destruct c end;
    reflexivity.
Qed.

Lemma timed_step_pin (w : World) :
  pin_reads (snd (LinearAxis_timed_step env w)) = pin_reads w
  /\ endstop (axis (snd (LinearAxis_timed_step env w))) = endstop (axis w).
Proof.
  split.
  - destruct (Z.leb_spec (_next_step_at (axis w))
                (clock env (clock_reads w))).
    + rewrite timed_step_fire by assumption.
      cbn [snd with_axis after_read pin_reads].
      apply (direct_step_pin_reads (after_read w)).
    + rewrite timed_step_wait by assumption. reflexivity.
  - exact (f_equal (fun s => snd (snd (fst s))) (timed_step_settings env w)).
Qed.

Lemma timed_step_pulses (w : World) :
  pulses (trace w) <= pulses (trace (snd (LinearAxis_timed_step env w)))
  <= pulses (trace w) + 1.
Proof.
  destruct (Z.leb_spec (_next_step_at (axis w)) (clock env (clock_reads w))).
  - rewrite timed_step_fire by assumption.
    cbn [snd with_axis after_read trace].
    destruct (Z.eq_dec (total_step_count (_current_move (axis w))) 0)
      as [E|E].
    + rewrite (direct_step_idle (after_read w) E). cbn [trace after_read]. lia.
    + destruct (direct_step_moving (after_read w) E) as (_ & _ & _ & Ht).
      rewrite Ht, pulses_pulse. cbn [trace after_read]. lia.
  - rewrite timed_step_wait by assumption. cbn [snd trace after_read]. lia.
Qed.

End EndstopSeek.

Section EndstopLoop.

Variable env : Env.

(** The loop returns on the first sample that reads 1, having ticked once
    per sample that did not. *)
Lemma endstop_loop_first_closed (fuel : nat) : forall w w',
  endstop_seek_loop env fuel w = Some w' ->
  exists k,
    (pin_reads w <= k)%nat
    /\ pin_reads w' = S k
    /\ pin_level env k (endstop (axis w)) = 1
    /\ (forall j, (pin_reads w <= j < k)%nat ->
                  pin_level env j (endstop (axis w)) <> 1)
    /\ pulses (trace w) <= pulses (trace w')
       <= pulses (trace w) + Z.of_nat (k - pin_reads w).
Proof.
  induction fuel as [|fuel IH]; intros w w' H; [discriminate|].
  cbn [endstop_seek_loop] in H. unfold gpio_get in H.
  destruct (pin_level env (pin_reads w) (endstop (axis w)) =? 1) eqn:E.
  - injection H as <-. apply Z.eqb_eq in E.
    exists (pin_reads w). rewrite Nat.sub_diag.
    cbn [pin_reads trace axis]. unfold pulses. cbn [filter is_pulse].
    repeat split; try lia; try assumption.
  - apply Z.eqb_neq in E. apply IH in H.
    destruct H as (k & Hk & Hr & Hc & Hopen & Hp).
    set (w0 := mkWorld (axis w) (clock_reads w) (stall_polls w)
                 (S (pin_reads w))
                 (EvEndstop (endstop (axis w))
                    (pin_level env (pin_reads w) (endstop (axis w)))
                  :: trace w)) in *.
    destruct (timed_step_pin env w0) as [Hpin Hend].
    pose proof (timed_step_pulses env w0) as Hpul.
    rewrite Hpin in Hk, Hopen, Hp. rewrite Hend in Hc, Hopen.
    assert (Hpw : pulses (trace w0) = pulses (trace w)) by reflexivity.
    rewrite Hpw in Hpul.
    change (pin_reads w0) with (S (pin_reads w)) in *.
    change (endstop (axis w0)) with (endstop (axis w)) in *.
    exists k. split; [lia|]. split; [exact Hr|]. split; [exact Hc|].
    split.
    + intros j Hj. destruct (Nat.eq_dec j (pin_reads w)) as [->|Hne];
        [exact E | apply Hopen; lia].
    + lia.
Qed.

(** Conversely the loop does return once a sample reads 1. *)
Lemma endstop_loop_returns (n : nat) : forall w fuel,
  pin_level env (pin_reads w + n) (endstop (axis w)) = 1 ->
  (n < fuel)%nat ->
  exists w', endstop_seek_loop env fuel w = Some w'.
Proof.
  induction n as [|n IH]; intros w fuel Hc Hf;
    (destruct fuel as [|fuel]; [lia|]);
    cbn [endstop_seek_loop]; unfold gpio_get.
  - rewrite Nat.add_0_r in Hc. rewrite Hc. cbn. eauto.
  - destruct (pin_level env (pin_reads w) (endstop (axis w)) =? 1);
      [eauto|].
    apply IH; [|lia].
    match goal with
    | |- context [LinearAxis_timed_step env ?x] =>
        destruct (timed_step_pin env x) as [Hpin Hend]
    end.
    rewrite Hpin, Hend. cbn [pin_reads axis].
    replace (S (pin_reads w) + n)%nat with (pin_reads w + S n)%nat by lia.
    exact Hc.
Qed.

Lemma endstop_loop_needs_trigger (fuel : nat) (w : World) :
  (forall k, pin_level env k (endstop (axis w)) <> 1) ->
  endstop_seek_loop env fuel w = None.
Proof.
  intros Hopen.
  destruct (endstop_seek_loop env fuel w) as [w'|] eqn:E; [|reflexivity].
  destruct (endstop_loop_first_closed fuel w w' E) as (k & _ & _ & Hc & _).
  destruct (Hopen k Hc).
Qed.

End EndstopLoop.

(** X9.  An endstop that never reads 1 keeps [endstop_seek] and
    [LinearAxis_endstop_home] from returning, however long they run: the
    end of the seek move is no exit of the loop. *)
Theorem endstop_home_needs_trigger (env : Env) (w : World) :
  (forall k, pin_level env k (endstop (axis w)) <> 1) ->
  (forall fuel dist_mm, endstop_seek env fuel w dist_mm = None)
  /\ (forall fuel, LinearAxis_endstop_home env fuel w = None).
Proof.
  intros Hopen. split.
  - intros fuel dist_mm. unfold endstop_seek.
    rewrite endstop_loop_needs_trigger; [reflexivity | exact Hopen].
  - intros fuel. unfold LinearAxis_endstop_home, endstop_seek. cbv zeta.
    rewrite endstop_loop_needs_trigger; [reflexivity | exact Hopen].
Qed.

Lemma endstop_home_needs_trigger_witness :
  (forall k, pin_level quiet_env k (endstop (axis (world_of seek_axis))) <> 1)
  /\ endstop_seek quiet_env 1000 (world_of seek_axis) (F32.of_Z (-20)) = None
  /\ LinearAxis_endstop_home quiet_env 1000 (world_of seek_axis) = None.
Proof.
  assert (Hopen : forall k,
             pin_level quiet_env k (endstop (axis (world_of seek_axis))) <> 1)
    by (intros k; cbn; discriminate).
  split; [exact Hopen|].
  destruct (endstop_home_needs_trigger quiet_env (world_of seek_axis) Hopen)
    as [Hseek Hhome].
  split; [apply Hseek | apply Hhome].
Defined.

(** X10.  [endstop_seek] returns exactly when a sample of the endstop
    reads 1: it returns at the first such sample, with the plan zeroed and
    the step counter reset to 0, having emitted at most one pulse per
    sample that read open - none at all when the endstop is closed from
    the start; and if some sample reads 1, enough iterations make it
    return. *)
Theorem endstop_seek_stops_at_first_closed_sample
  (env : Env) (w : World) (dist_mm : F32.float) :
  (forall fuel w',
     endstop_seek env fuel w dist_mm = Some w' ->
     _current_move (axis w') = zero_plan
     /\ Stepper.total_steps (stepper (axis w')) = 0
     /\ exists k,
          (pin_reads w <= k)%nat
          /\ pin_reads w' = S k
          /\ pin_level env k (endstop (axis w)) = 1
          /\ (forall j, (pin_reads w <= j < k)%nat ->
                        pin_level env j (endstop (axis w)) <> 1)
          /\ pulses (trace w) <= pulses (trace w')
             <= pulses (trace w) + Z.of_nat (k - pin_reads w))
  /\ (forall n fuel,
        pin_level env (pin_reads w + n) (endstop (axis w)) = 1 ->
        (n < fuel)%nat ->
        exists w', endstop_seek env fuel w dist_mm = Some w').
Proof.
  split.
  - intros fuel w' H. unfold endstop_seek in H.
    destruct (endstop_seek_loop env fuel _) as [w1|] eqn:E; [|discriminate].
    injection H as <-.
    apply endstop_loop_first_closed in E.
    split; [reflexivity|]. split; [reflexivity|]. exact E.
  - intros n fuel Hc Hf. unfold endstop_seek.
    destruct (endstop_loop_returns env n
                (LinearAxis_start_move env w
                   (LinearAxis_calculate_move (axis w) dist_mm)) fuel Hc Hf)
      as [w1 ->].
    eauto.
Qed.

Lemma endstop_seek_stops_at_first_closed_sample_witness :
  match endstop_seek bench_env 60 (world_of seek_axis) (F32.of_Z (-20)) with
  | Some w' => pin_reads w' = 41%nat
               /\ Stepper.total_steps (stepper (axis w')) = 0
  | None => False
  end.
Proof.
  destruct (endstop_seek_stops_at_first_closed_sample bench_env
              (world_of seek_axis) (F32.of_Z (-20))) as [Hret Hex].
  destruct (Hex 40%nat 60%nat eq_refl) as [w' Hw']; [repeat constructor|].
  rewrite Hw'.
  destruct (Hret 60%nat w' Hw') as (_ & Hz & k & Hk & Hr & Hc & Hopen & _).
  split; [|exact Hz].
  rewrite Hr. f_equal.
  destruct (Nat.lt_trichotomy k 40) as [Hlt | [-> | Hgt]]; [| reflexivity |].
  - exfalso. revert Hc. cbn [pin_level bench_env].
    apply Nat.ltb_lt in Hlt. rewrite Hlt. discriminate.
  - exfalso. apply (Hopen 40%nat); [split; [apply Nat.le_0_l | exact Hgt] | reflexivity].
Defined.

(** ** Leaving the stall-based seek *)

Section SeekExit.

Variable env : Env.

(** One iteration either does not read the stall flag and goes on, or
    reads it once and leaves the loop iff it is raised. *)
Lemma seek_body_polls (s : SeekLoop) :
  let r := stallguard_seek_body env s in
  (stall_polls (seek_world (fst r)) = stall_polls (seek_world s)
   /\ snd r = false)
  \/ (stall_polls (seek_world (fst r)) = S (stall_polls (seek_world s))
      /\ snd r = stall_flag env (stall_polls (seek_world s))).
Proof.
  cbv zeta. rewrite seek_body_unfold.
  destruct (timed_step_plan env (seek_world s)) as (_ & Hp & _).
  set (w1 := snd (LinearAxis_timed_step env (seek_world s))) in *.
  assert (Ha : stall_polls (armed_world w1) = stall_polls w1)
    by (unfold armed_world; destruct (arms w1); reflexivity).
  destruct (arms w1 || check_for_stall s); cbn [fst snd seek_world].
  - right. unfold Stepper_stalled. cbn [snd stall_polls].
    rewrite Ha, Hp. split; reflexivity.
  - left. rewrite Ha, Hp. split; reflexivity.
Qed.

Lemma seek_loop_first_stall (fuel : nat) : forall s w',
  stallguard_seek_loop env fuel s = Some w' ->
  exists k,
    (stall_polls (seek_world s) <= k)%nat
    /\ stall_polls w' = S k
    /\ stall_flag env k = true
    /\ quiet_between env (stall_polls (seek_world s)) k.
Proof.
  induction fuel as [|fuel IH]; intros s w' H; [discriminate|].
  cbn [stallguard_seek_loop] in H.
  pose proof (seek_body_polls s) as Hb. cbv zeta in Hb.
  destruct (stallguard_seek_body env s) as [s' x]. cbn [fst snd] in Hb.
  destruct x.
  - injection H as <-. destruct Hb as [[_ Hx] | [Hp Hx]]; [discriminate|].
    exists (stall_polls (seek_world s)).
    split; [lia|]. split; [exact Hp|]. split; [congruence|].
    intros j Hj. lia.
  - apply IH in H. destruct H as (k & Hk & Hr & Ht & Hq).
    destruct Hb as [[Hp _] | [Hp Hx]]; rewrite Hp in *.
    + exists k. auto.
    + exists k. split; [lia|]. split; [exact Hr|]. split; [exact Ht|].
      intros j Hj.
      destruct (Nat.eq_dec j (stall_polls (seek_world s))) as [->|Hne];
        [congruence | apply Hq; lia].
Qed.

End SeekExit.

(** What both seeks leave behind. *)
Lemma stallguard_seek_rest
      (env : Env) (fuel : nat) (w w' : World) (dist_mm : F32.float) :
  stallguard_seek env fuel w dist_mm = Some w' ->
  _current_move (axis w') = zero_plan
  /\ Stepper.total_steps (stepper (axis w')) = 0
  /\ Stepper.stallguard (stepper (axis w')) = None.
Proof.
  unfold stallguard_seek. intros H.
  destruct (stallguard_seek_loop env fuel _) as [w1|]; [|discriminate].
  injection H as <-. repeat split.
Qed.

Lemma endstop_seek_rest
      (env : Env) (fuel : nat) (w w' : World) (dist_mm : F32.float) :
  endstop_seek env fuel w dist_mm = Some w' ->
  _current_move (axis w') = zero_plan
  /\ Stepper.total_steps (stepper (axis w')) = 0.
Proof.
  unfold endstop_seek. intros H.
  destruct (endstop_seek_loop env fuel _) as [w1|]; [|discriminate].
  injection H as <-. repeat split.
Qed.

(** X11.  A [stallguard_seek] that returns has left its loop on the first
    raised reading of the stall flag, every earlier reading of the seek
    having been false; it returns with the plan zeroed, the step counter
    reset to 0 and the stall detector switched off. *)
Theorem seek_returns_on_first_stall
  (env : Env) (fuel : nat) (w w' : World) (dist_mm : F32.float) :
  stallguard_seek env fuel w dist_mm = Some w' ->
  _current_move (axis w') = zero_plan
  /\ Stepper.total_steps (stepper (axis w')) = 0
  /\ Stepper.stallguard (stepper (axis w')) = None
  /\ exists k,
       (stall_polls w <= k)%nat
       /\ stall_polls w' = S k
       /\ stall_flag env k = true
       /\ quiet_between env (stall_polls w) k.
Proof.
  unfold stallguard_seek. intros H.
  destruct (stallguard_seek_loop env fuel _) as [w1|] eqn:E; [|discriminate].
  injection H as <-.
  apply seek_loop_first_stall in E. rewrite seek_entry_plan in E.
  repeat (split; [reflexivity|]). exact E.
Qed.

Lemma seek_returns_on_first_stall_witness :
  match stallguard_seek bench_env 60 (world_of seek_axis) (F32.of_Z (-20)) with
  | Some w' => Stepper.stallguard (stepper (axis w')) = None
               /\ exists k, stall_polls w' = S k
                            /\ stall_flag bench_env k = true
  | None => False
  end.
Proof.
  destruct (stallguard_seek bench_env 60 (world_of seek_axis) (F32.of_Z (-20)))
    as [w'|] eqn:E; [|vm_compute in E; discriminate E].
  destruct (seek_returns_on_first_stall bench_env 60 _ w' _ E)
    as (_ & _ & Hoff & k & _ & Hr & Ht & _).
  split; [exact Hoff|]. exists k. split; assumption.
Defined.

(** X12.  When a homing routine returns the axis is at rest at the
    origin: the plan is the zero plan, the step counter is 0 and - after
    the sensorless routine - the stall detector is off. *)
Theorem homing_ends_at_origin (env : Env) (fuel : nat) (w w' : World) :
  (LinearAxis_sensorless_home env fuel w = Some w' ->
   _current_move (axis w') = zero_plan
   /\ Stepper.total_steps (stepper (axis w')) = 0
   /\ Stepper.stallguard (stepper (axis w')) = None
   /\ LinearAxis_is_moving (axis w') = false)
  /\ (LinearAxis_endstop_home env fuel w = Some w' ->
      _current_move (axis w') = zero_plan
      /\ Stepper.total_steps (stepper (axis w')) = 0
      /\ LinearAxis_is_moving (axis w') = false).
Proof.
  split; intros H.
  - unfold LinearAxis_sensorless_home in H. cbv zeta in H.
    repeat match type of H with
           | match ?x with _ => _ end = _ =>
               let E := fresh "E" in
               destruct x eqn:E; [|discriminate]
           end.
    injection H as <-.
    match goal with
    | E : stallguard_seek env fuel (with_axis _ (with_axis _ _)) _ = Some _
      |- _ => apply stallguard_seek_rest in E;
              destruct E as (Hp & Hz & Hoff)
    end.
    cbn [with_axis axis set_velocity_mm_s set_acceleration_mm_s2
         _current_move stepper].
    split; [exact Hp|]. split; [exact Hz|]. split; [exact Hoff|].
    unfold LinearAxis_is_moving.
    cbn [set_velocity_mm_s set_acceleration_mm_s2 _current_move].
    rewrite Hp. reflexivity.
  - unfold LinearAxis_endstop_home in H. cbv zeta in H.
    repeat match type of H with
           | match ?x with _ => _ end = _ =>
               let E := fresh "E" in
               destruct x eqn:E; [|discriminate]
           end.
    injection H as <-.
    match goal with
    | E : endstop_seek env fuel (with_axis _ (with_axis _ _)) _ = Some _
      |- _ => apply endstop_seek_rest in E; destruct E as (Hp & Hz)
    end.
    cbn [with_axis axis set_velocity_mm_s set_acceleration_mm_s2
         _current_move stepper].
    split; [exact Hp|]. split; [exact Hz|].
    unfold LinearAxis_is_moving.
    cbn [set_velocity_mm_s set_acceleration_mm_s2 _current_move].
    rewrite Hp. reflexivity.
Qed.

Lemma homing_ends_at_origin_witness :
  let w := world_of seek_axis in
  match LinearAxis_sensorless_home bench_env 60 w,
        LinearAxis_endstop_home bench_env 60 w with
  | Some ws, Some we =>
      Stepper.total_steps (stepper (axis ws)) = 0
      /\ Stepper.total_steps (stepper (axis we)) = 0
  | _, _ => False
  end.
Proof.
  intros w.
  destruct (LinearAxis_sensorless_home bench_env 60 w) as [ws|] eqn:Es;
    [|vm_compute in Es; discriminate Es].
  destruct (LinearAxis_endstop_home bench_env 60 w) as [we|] eqn:Ee;
    [|vm_compute in Ee; discriminate Ee].
  destruct (homing_ends_at_origin bench_env 60 w ws) as [Hs _].
  destruct (homing_ends_at_origin bench_env 60 w we) as [_ He].
  split; [exact (proj1 (proj2 (Hs Es))) | exact (proj1 (proj2 (He Ee)))].
Defined.

(** ** Initialisation *)

Lemma timed_steps_settings (env : Env) (n : nat) : forall w,
  settings (axis (timed_steps env n w)) = settings (axis w).
Proof.
  induction n as [|n IH]; intros w; [reflexivity|].
  change (timed_steps env (S n) w)
    with (timed_steps env n (snd (LinearAxis_timed_step env w))).
  rewrite IH. apply timed_step_settings.
Qed.

(** X13.  A freshly initialised axis is idle at the default kinematics
    (100 mm/s, 1000 mm/s²): ticking it any number of times emits nothing
    and leaves the installed driver untouched, and waiting for its move
    returns at once without even reading the clock. *)
Theorem init_leaves_axis_idle
  (env : Env) (w : World) (name : Z) (drv : Stepper.t) (n fuel : nat) :
  let w0 := with_axis (fun m => LinearAxis_init m name drv) w in
  let wn := timed_steps env n w0 in
  LinearAxis_is_moving (axis wn) = false
  /\ trace wn = trace w
  /\ stepper (axis wn) = drv
  /\ kinematics (axis wn) = (F32.of_Z 100, F32.of_Z 1000)
  /\ LinearAxis_wait_for_move env fuel w0 = Some w0.
Proof.
  intros w0 wn.
  assert (Hidle : total_step_count (_current_move (axis w0)) = 0)
    by reflexivity.
  destruct (timed_steps_idle env n w0 Hidle) as (Hm & Hs & _ & Ht).
  fold wn in Hm, Hs, Ht.
  pose proof (timed_steps_settings env n w0) as Hset.
  fold wn in Hset. apply settings_split in Hset. destruct Hset as [_ Hk].
  unfold LinearAxis_is_moving. rewrite Hm, Hs, Ht, Hk.
  repeat split.
Qed.

(** ** Waiting for a move *)

Lemma clock_monotone (env : Env) :
  (forall k, clock env k < clock env (S k)) ->
  forall a b, (a < b)%nat -> clock env a < clock env b.
Proof.
  intros Hc a b Hab. induction Hab as [|b Hab IH].
  - apply Hc.
  - pose proof (Hc b). lia.
Qed.

(** *** Loops that reach every deadline

    The argument of [loop_arrives] for a loop that is only known to reach
    each deadline with the plan untouched, however many clock readings
    that takes. *)
Section LoopArrival.

Variable env : Env.
Variable St : Type.
Variable W : St -> World.
Variable body : St -> St.

Hypothesis deadline_reachable : forall s,
  exists j,
    motion (W (iterate body j s)) = motion (W s)
    /\ _next_step_at (axis (W (iterate body j s)))
       <= clock env (clock_reads (W (iterate body j s))).

Hypothesis body_fires : forall s,
  _next_step_at (axis (W s)) <= clock env (clock_reads (W s)) ->
  motion (W (body s)) = motion (LinearAxis_direct_step (W s)).

Variables (p0 d : Z) (mv : LinearAxisMovement).
Hypothesis total_fits : total_step_count mv <= Int.INT32_MAX.

Lemma plan_after_due_step (s : St) (k : Z) :
  _next_step_at (axis (W s)) <= clock env (clock_reads (W s)) ->
  0 <= k < total_step_count mv ->
  _current_move (axis (W s)) = set_steps_taken k mv ->
  _current_move (axis (W (body s)))
  = if k + 1 =? total_step_count mv then zero_plan
    else set_steps_taken (k + 1) mv.
Proof.
  intros Hdue Hk Hmv.
  pose proof (body_fires s Hdue) as Hb. unfold motion in Hb.
  injection Hb as Hb _ _. rewrite Hb.
  destruct (direct_step_moving (W s)) as (_ & _ & Hplan & _).
  { rewrite Hmv. cbn [total_step_count set_steps_taken]. lia. }
  rewrite Hplan, Hmv. unfold plan_after_step.
  cbn [steps_taken set_steps_taken total_step_count].
  rewrite wrap32_id by (unfold Int.INT32_MIN, Int.INT32_MAX in *; lia).
  reflexivity.
Qed.

Lemma loop_arrives_at_deadlines (r : nat) : forall s,
  progress p0 d mv (axis (W s)) ->
  (forall k, 0 <= k < total_step_count mv ->
             _current_move (axis (W s)) = set_steps_taken k mv ->
             (Z.to_nat (total_step_count mv - k) <= r)%nat) ->
  exists j, arrived p0 d mv (W (iterate body j s)).
Proof.
  induction r as [|r IH]; intros s Hp Hr.
  - destruct Hp as [Hd [(k & Hk & Hmv & Hpos) | [Hidle Hpos]]].
    + specialize (Hr k Hk Hmv). lia.
    + exists O. split; [|exact Hpos].
      unfold LinearAxis_is_moving. cbn [iterate]. rewrite Hidle. reflexivity.
  - destruct Hp as [Hd [(k & Hk & Hmv & Hpos) | [Hidle Hpos]]].
    2:{ exists O. split; [|exact Hpos].
        unfold LinearAxis_is_moving. cbn [iterate]. rewrite Hidle.
        reflexivity. }
    destruct (deadline_reachable s) as (j & Hm & Hdue).
    set (s1 := iterate body j s) in *.
    assert (Hmv1 : _current_move (axis (W s1)) = set_steps_taken k mv).
    { unfold motion in Hm. injection Hm as Hm _ _. congruence. }
    assert (Hp1 : progress p0 d mv (axis (W s1))).
    { apply (progress_motion p0 d mv (W s)); [exact Hm|].
      split; [exact Hd|]. left. exists k. auto. }
    assert (Hp2 : progress p0 d mv (axis (W (body s1)))).
    { apply (progress_motion p0 d mv (LinearAxis_direct_step (W s1)));
        [apply body_fires, Hdue|].
      apply direct_step_progress; assumption. }
    pose proof (plan_after_due_step s1 k Hdue Hk Hmv1) as Hnext.
    destruct (IH (body s1) Hp2) as (j2 & Hj2).
    { intros k' Hk' Hmv'. rewrite Hmv' in Hnext.
      specialize (Hr k Hk Hmv).
      destruct (k + 1 =? total_step_count mv) eqn:E.
      - assert (total_step_count (set_steps_taken k' mv) = 0)
          by (rewrite Hnext; reflexivity).
        cbn [total_step_count set_steps_taken] in *. lia.
      - assert (steps_taken (set_steps_taken k' mv) = k + 1)
          by (rewrite Hnext; reflexivity).
        cbn [steps_taken set_steps_taken] in *. lia. }
    exists (j + S j2)%nat. rewrite iterate_add. exact Hj2.
Qed.

Lemma loop_completes_at_deadlines (s : St) :
  progress p0 d mv (axis (W s)) ->
  exists j, arrived p0 d mv (W (iterate body j s)).
Proof.
  intros Hp.
  apply (loop_arrives_at_deadlines (Z.to_nat (total_step_count mv)) s Hp).
  intros k Hk _. lia.
Qed.

End LoopArrival.

Section WaitLoops.

Variable env : Env.

(** Besides the tick, an iteration of the waiting loop only reads the
    clock, once or twice. *)
Lemma wait_body_world (s : WaitLoop) :
  let w1 := snd (LinearAxis_timed_step env (wait_world s)) in
  let w' := wait_world (wait_body env s) in
  axis w' = axis w1
  /\ trace w' = trace w1
  /\ (clock_reads w1 < clock_reads w')%nat.
Proof.
  cbv zeta. unfold wait_body, make_timeout_time_ms, get_absolute_time.
  destruct (absolute_time_diff_us _ _ <=? 0); cbn [wait_world axis trace
    clock_reads]; repeat split; lia.
Qed.

Lemma wait_body_fires (s : WaitLoop) :
  _next_step_at (axis (wait_world s))
  <= clock env (clock_reads (wait_world s)) ->
  motion (wait_world (wait_body env s))
  = motion (LinearAxis_direct_step (wait_world s)).
Proof.
  intros H. destruct (wait_body_world s) as (Ha & _ & _).
  rewrite <- (timed_step_motion env _ H). unfold motion. rewrite Ha.
  reflexivity.
Qed.

Lemma wait_deadline_reached
      (Hclock : forall k, clock env k < clock env (S k)) (n : nat) :
  forall s,
    (Z.to_nat (_next_step_at (axis (wait_world s))
               - clock env (clock_reads (wait_world s))) <= n)%nat ->
    exists j,
      motion (wait_world (iterate (wait_body env) j s))
      = motion (wait_world s)
      /\ _next_step_at (axis (wait_world (iterate (wait_body env) j s)))
         <= clock env (clock_reads (wait_world (iterate (wait_body env) j s))).
Proof.
  induction n as [|n IH]; intros s Hn.
  - exists O. split; [reflexivity|]. cbn [iterate]. lia.
  - destruct (Z.leb_spec (_next_step_at (axis (wait_world s)))
                (clock env (clock_reads (wait_world s)))) as [Hdue|Hwait].
    + exists O. split; [reflexivity | exact Hdue].
    + destruct (wait_body_world s) as (Ha & _ & Hr).
      rewrite (timed_step_wait env _ Hwait) in Ha, Hr.
      cbn [snd axis after_read clock_reads] in Ha, Hr.
      assert (Hlt : clock env (clock_reads (wait_world s))
                    < clock env (clock_reads (wait_world (wait_body env s))))
        by (apply clock_monotone; [exact Hclock | lia]).
      destruct (IH (wait_body env s)) as (j & Hj1 & Hj2).
      { rewrite Ha. lia. }
      exists (S j). cbn [iterate]. split; [|exact Hj2].
      rewrite Hj1. unfold motion. rewrite Ha. reflexivity.
Qed.

Lemma run_state_same (pulses0 : Z) (mv : LinearAxisMovement) (w w' : World) :
  axis w' = axis w -> trace w' = trace w ->
  run_state pulses0 mv w -> run_state pulses0 mv w'.
Proof. unfold run_state. intros -> ->. trivial. Qed.

Lemma wait_body_inv (p0 d pulses0 : Z) (mv : LinearAxisMovement)
      (s : WaitLoop) :
  total_step_count mv <= Int.INT32_MAX ->
  wait_inv p0 d pulses0 mv s -> wait_inv p0 d pulses0 mv (wait_body env s).
Proof.
  intros Ht [Hp Hr]. destruct (wait_body_world s) as (Ha & Htr & _).
  split.
  - rewrite Ha. apply timed_step_progress; assumption.
  - apply (run_state_same _ _ _ _ Ha Htr).
    apply timed_step_run_state; assumption.
Qed.

Lemma wait_loop_inv (p0 d pulses0 : Z) (mv : LinearAxisMovement)
      (Ht : total_step_count mv <= Int.INT32_MAX) (fuel : nat) :
  forall s w',
    wait_inv p0 d pulses0 mv s ->
    wait_loop env fuel s = Some w' ->
    LinearAxis_is_moving (axis w') = false
    /\ progress p0 d mv (axis w')
    /\ run_state pulses0 mv w'.
Proof.
  induction fuel as [|fuel IH]; intros s w' Hi H; cbn [wait_loop] in H;
    destruct (LinearAxis_is_moving (axis (wait_world s))) eqn:Em;
    try discriminate.
  - injection H as <-. destruct Hi. auto.
  - apply (IH _ _ (wait_body_inv _ _ _ _ s Ht Hi) H).
  - injection H as <-. destruct Hi. auto.
Qed.

Lemma wait_loop_enough (j : nat) : forall s,
  LinearAxis_is_moving (axis (wait_world (iterate (wait_body env) j s)))
  = false ->
  exists w', wait_loop env j s = Some w'.
Proof.
  induction j as [|j IH]; intros s H; cbn [wait_loop iterate] in *.
  - rewrite H. eauto.
  - destruct (LinearAxis_is_moving (axis (wait_world s))); [|eauto].
    apply IH, H.
Qed.

End WaitLoops.

Lemma run_at_rest (p0 d pulses0 : Z) (mv : LinearAxisMovement) (w : World) :
  LinearAxis_is_moving (axis w) = false ->
  progress p0 d mv (axis w) ->
  run_state pulses0 mv w ->
  Stepper.total_steps (stepper (axis w)) = p0 + d * total_step_count mv
  /\ pulses (trace w) = pulses0 + total_step_count mv.
Proof.
  unfold LinearAxis_is_moving. intros Hidle Hp Hr.
  rewrite Z.gtb_ltb in Hidle. apply Z.ltb_ge in Hidle. split.
  - destruct Hp as [_ [(k & Hk & Hmv & _) | [_ Hpos]]]; [|exact Hpos].
    rewrite Hmv in Hidle. cbn [total_step_count set_steps_taken] in Hidle.
    lia.
  - destruct Hr as [(k & Hk & Hmv & _) | (_ & _ & Hpul)]; [|exact Hpul].
    rewrite Hmv in Hidle. cbn [total_step_count set_steps_taken] in Hidle.
    lia.
Qed.

(** X14.  [LinearAxis_wait_for_move], called after [start_move], returns
    only with the axis idle, the step counter displaced by
    direction * total_step_count and exactly total_step_count pulses
    emitted; with an advancing clock it does return. *)
Theorem wait_for_move_returns_at_rest
  (env : Env) (w : World) (mv : LinearAxisMovement) :
  steps_taken mv = 0 ->
  0 <= total_step_count mv <= Int.INT32_MAX ->
  -128 <= direction mv <= 127 ->
  (forall fuel w',
     LinearAxis_wait_for_move env fuel (LinearAxis_start_move env w mv)
     = Some w' ->
     LinearAxis_is_moving (axis w') = false
     /\ Stepper.total_steps (stepper (axis w'))
        - Stepper.total_steps (stepper (axis w))
        = direction mv * total_step_count mv
     /\ pulses (trace w') - pulses (trace w) = total_step_count mv)
  /\ ((forall k, clock env k < clock env (S k)) ->
      exists fuel w',
        LinearAxis_wait_for_move env fuel (LinearAxis_start_move env w mv)
        = Some w').
Proof.
  intros Hs [Ht0 Ht] Hd.
  pose proof (start_move_progress env w mv Hs Ht0) as Hp.
  rewrite (wrap8_id _ Hd) in Hp.
  pose proof (start_move_run_state env w mv Hs Ht0) as Hr.
  set (w0 := LinearAxis_start_move env w mv) in *.
  set (s0 := mkWait (after_read w0) (clock env (clock_reads w0) + 1000 * 1000)).
  assert (Hunfold : forall fuel,
             LinearAxis_wait_for_move env fuel w0
             = if negb (LinearAxis_is_moving (axis w0)) then Some w0
               else wait_loop env fuel s0) by reflexivity.
  assert (Hi : wait_inv (Stepper.total_steps (stepper (axis w)))
                 (direction mv) (pulses (trace w)) mv s0)
    by (split; assumption).
  split.
  - intros fuel w' H. rewrite Hunfold in H.
    destruct (LinearAxis_is_moving (axis w0)) eqn:Em; cbn [negb] in H.
    + destruct (wait_loop_inv env _ _ _ mv Ht fuel s0 w' Hi H)
        as (Hidle & Hp' & Hr').
      destruct (run_at_rest _ _ _ mv w' Hidle Hp' Hr') as [H1 H2].
      split; [exact Hidle|]. lia.
    + injection H as <-.
      destruct (run_at_rest _ _ _ mv w0 Em Hp Hr) as [H1 H2].
      split; [exact Em|]. lia.
  - intros Hclock.
    destruct (LinearAxis_is_moving (axis w0)) eqn:Em.
    + destruct (loop_completes_at_deadlines env WaitLoop wait_world
                  (wait_body env)
                  (fun s => wait_deadline_reached env Hclock _ s
                              (Nat.le_refl _))
                  (wait_body_fires env) _ _ mv Ht s0 (proj1 Hi))
        as (j & Hj & _).
      destruct (wait_loop_enough env j s0 Hj) as [w' Hw'].
      exists j, w'. rewrite Hunfold. exact Hw'.
    + exists O, w0. rewrite Hunfold. reflexivity.
Qed.

Lemma wait_for_move_returns_at_rest_witness :
  let w := world_of (scenario_axis 1000) in
  let mv := mkMovement (-1) 3 4 0 7 0 in
  match LinearAxis_wait_for_move quiet_env 10
          (LinearAxis_start_move quiet_env w mv) with
  | Some w' => Stepper.total_steps (stepper (axis w')) - 1000 = -1 * 7
               /\ pulses (trace w') - 0 = 7
  | None => False
  end.
Proof.
  intros w mv.
  destruct (LinearAxis_wait_for_move quiet_env 10
              (LinearAxis_start_move quiet_env w mv)) as [w'|] eqn:E;
    [|vm_compute in E; discriminate E].
  assert (Ht : 0 <= total_step_count mv <= Int.INT32_MAX)
    by (vm_compute; split; discriminate).
  assert (Hd : -128 <= direction mv <= 127)
    by (vm_compute; split; discriminate).
  destruct (wait_for_move_returns_at_rest quiet_env w mv eq_refl Ht Hd)
    as [H _].
  destruct (H 10%nat w' E) as (_ & H1 & H2). split; [exact H1 | exact H2].
Defined.

(** ** The cruise interval *)

Lemma inst_velocity_coast (m : LinearAxis) :
  let mv := _current_move m in
  accel_step_count mv <= steps_taken mv
                      < accel_step_count mv + coast_step_count mv ->
  accel_step_count mv + coast_step_count mv <= Int.INT32_MAX ->
  Int.INT32_MIN <= accel_step_count mv + coast_step_count mv ->
  inst_velocity m = velocity_mm_s m.
Proof.
  intros mv Hk Hhi Hlo. unfold inst_velocity. fold mv.
  rewrite wrap32_id by lia.
  replace (steps_taken mv <? accel_step_count mv) with false
    by (symmetry; apply Z.ltb_ge; lia).
  replace (steps_taken mv <? accel_step_count mv + coast_step_count mv)
    with true by (symmetry; apply Z.ltb_lt; lia).
  reflexivity.
Qed.

(** X15.  Throughout the coast phase the interval is one and the same: it
    is computed from velocity_mm_s and steps_per_mm alone, not from the
    step reached. *)
Theorem coast_interval_constant
  (env : Env) (m : LinearAxis) (mv : LinearAxisMovement) (k1 k2 : Z) :
  0 <= accel_step_count mv ->
  accel_step_count mv + coast_step_count mv <= Int.INT32_MAX ->
  accel_step_count mv <= k1 < accel_step_count mv + coast_step_count mv ->
  accel_step_count mv <= k2 < accel_step_count mv + coast_step_count mv ->
  let at_step := fun k => set_current_move (set_steps_taken k mv) m in
  inst_velocity (at_step k1) = velocity_mm_s m
  /\ _step_interval (LinearAxis_calculate_step_interval env (at_step k1))
     = _step_interval (LinearAxis_calculate_step_interval env (at_step k2)).
Proof.
  intros Ha Hmax H1 H2 at_step.
  assert (Hv : forall k,
             accel_step_count mv <= k
                                 < accel_step_count mv + coast_step_count mv ->
             inst_velocity (at_step k) = velocity_mm_s m).
  { intros k Hk. unfold at_step.
    rewrite inst_velocity_coast;
      cbn [_current_move set_current_move set_steps_taken accel_step_count
           coast_step_count steps_taken velocity_mm_s];
      unfold Int.INT32_MIN; try lia. reflexivity. }
  split; [exact (Hv k1 H1)|].
  unfold LinearAxis_calculate_step_interval, s_per_step, steps_per_s.
  rewrite (Hv k1 H1), (Hv k2 H2). reflexivity.
Qed.

Lemma coast_interval_constant_witness :
  _step_interval
    (LinearAxis_calculate_step_interval quiet_env
       (set_current_move (set_steps_taken 400 (scenario_plan 0))
          (scenario_axis 0)))
  = _step_interval
      (LinearAxis_calculate_step_interval quiet_env
         (set_current_move (set_steps_taken 3599 (scenario_plan 0))
            (scenario_axis 0))).
Proof.
  refine (proj2 (coast_interval_constant quiet_env (scenario_axis 0)
                   (scenario_plan 0) 400 3599 _ _ _ _));
    cbn [scenario_plan accel_step_count coast_step_count];
    unfold Int.INT32_MAX; lia.
Defined.

(** ** What ticking never touches *)

(** X16.  Ticks never read the stall flag or the endstop and never switch
    the stall detector: through any number of calls of
    [LinearAxis_timed_step], and through a bounce run to its end, the
    detector setting and the numbers of polls and samples stay as they
    were and the configuration is unchanged. *)
Theorem ticks_leave_sensors_alone (env : Env) (w : World) :
  (forall n,
     let wn := timed_steps env n w in
     Stepper.stallguard (stepper (axis wn))
     = Stepper.stallguard (stepper (axis w))
     /\ stall_polls wn = stall_polls w
     /\ pin_reads wn = pin_reads w
     /\ settings (axis wn) = settings (axis w))
  /\ (forall fuel w',
        run_move env fuel w = Some w' ->
        Stepper.stallguard (stepper (axis w'))
        = Stepper.stallguard (stepper (axis w))
        /\ stall_polls w' = stall_polls w
        /\ pin_reads w' = pin_reads w
        /\ LinearAxis_is_moving (axis w') = false).
Proof.
  assert (Hstep : forall x,
             Stepper.stallguard (stepper (axis (snd (LinearAxis_timed_step env x))))
             = Stepper.stallguard (stepper (axis x))
             /\ stall_polls (snd (LinearAxis_timed_step env x)) = stall_polls x
             /\ pin_reads (snd (LinearAxis_timed_step env x)) = pin_reads x).
  { intros x. destruct (timed_step_plan env x) as (Hg & Hp & _).
    destruct (timed_step_pin env x) as [Hpin _]. auto. }
  split.
  - intros n. revert w. induction n as [|n IH]; intros w wn.
    + repeat split.
    + destruct (Hstep w) as (Hg & Hp & Hpin).
      destruct (IH (snd (LinearAxis_timed_step env w)))
        as (Hg' & Hp' & Hpin' & Hs').
      unfold wn.
      change (timed_steps env (S n) w)
        with (timed_steps env n (snd (LinearAxis_timed_step env w))).
      rewrite Hg', Hp', Hpin', Hs', Hg, Hp, Hpin.
      repeat split. apply timed_step_settings.
  - intros fuel. revert w.
    induction fuel as [|fuel IH]; intros w w' H; cbn [run_move] in H;
      destruct (LinearAxis_is_moving (axis w)) eqn:Em; try discriminate.
    + injection H as <-. auto.
    + destruct (Hstep w) as (Hg & Hp & Hpin).
      destruct (IH _ _ H) as (Hg' & Hp' & Hpin' & Hidle).
      rewrite Hg', Hp', Hpin', Hg, Hp, Hpin. auto.
    + injection H as <-. auto.
Qed.

Lemma ticks_leave_sensors_alone_witness :
  let w := LinearAxis_start_move bench_env (world_of seek_axis)
             (mkMovement 1 2 3 0 5 0) in
  match run_move bench_env 10 w with
  | Some w' => stall_polls w' = O /\ pin_reads w' = O
  | None => False
  end.
Proof.
  intros w.
  destruct (run_move bench_env 10 w) as [w'|] eqn:E;
    [|vm_compute in E; discriminate E].
  destruct (ticks_leave_sensors_alone bench_env w) as [_ H].
  destruct (H 10%nat w' E) as (_ & Hp & Hpin & _).
  split; [exact Hp | exact Hpin].
Defined.

(** ** The lead-in of a move and the pace of an idle axis *)

Section LeadIn.

Variable env : Env.

(** Ticks that all read the clock before the deadline leave everything
    but the number of clock reads as it was. *)
Lemma waiting_ticks (n : nat) : forall w,
  (forall j, (j < n)%nat ->
     clock env (clock_reads w + j) < _next_step_at (axis w)) ->
  timed_steps env n w
  = mkWorld (axis w) (clock_reads w + n) (stall_polls w) (pin_reads w)
      (trace w).
Proof.
  induction n as [|n IH]; intros w H.
  - destruct w as [m r p q t]. cbn [timed_steps iterate axis clock_reads
      stall_polls pin_reads trace]. rewrite Nat.add_0_r. reflexivity.
  - change (timed_steps env (S n) w)
      with (timed_steps env n (snd (LinearAxis_timed_step env w))).
    rewrite timed_step_wait.
    + cbn [snd]. rewrite IH.
      * cbn [after_read axis clock_reads stall_polls pin_reads trace].
        replace (clock_reads w + S n)%nat with (S (clock_reads w) + n)%nat
          by lia.
        reflexivity.
      * intros j Hj. cbn [after_read axis clock_reads].
        replace (S (clock_reads w) + j)%nat with (clock_reads w + S j)%nat
          by lia.
        apply H. lia.
    + specialize (H O (Nat.lt_0_succ n)). rewrite Nat.add_0_r in H. exact H.
Qed.

(** A firing tick on a moving axis emits exactly one pulse. *)
Lemma timed_step_fire_pulse (w : World) :
  _next_step_at (axis w) <= clock env (clock_reads w) ->
  total_step_count (_current_move (axis w)) <> 0 ->
  pulses (trace (snd (LinearAxis_timed_step env w))) = pulses (trace w) + 1.
Proof.
  intros Hdue Hmv. rewrite timed_step_fire by assumption.
  cbn [snd with_axis after_read trace].
  destruct (direct_step_moving (after_read w) Hmv) as (_ & _ & _ & Ht).
  rewrite Ht, pulses_pulse. reflexivity.
Qed.

(** The plan a firing tick leaves behind is the zero plan when the axis
    was idle on the zero plan or the tick took the last step. *)
Lemma timed_step_fire_finishes (w : World) :
  _next_step_at (axis w) <= clock env (clock_reads w) ->
  _current_move (axis w) = zero_plan
  \/ (total_step_count (_current_move (axis w)) <> 0
      /\ Int.wrap32 (steps_taken (_current_move (axis w)) + 1)
         = total_step_count (_current_move (axis w))) ->
  let w1 := with_axis (LinearAxis_calculate_step_interval env)
              (LinearAxis_direct_step (after_read w)) in
  _current_move (axis w1) = zero_plan.
Proof.
  intros _ Hend w1. unfold w1. cbn [with_axis axis].
  rewrite calculate_step_interval_move.
  destruct Hend as [Hz | [Hmv Hlast]].
  - rewrite direct_step_idle.
    + exact Hz.
    + cbn [after_read axis]. rewrite Hz. reflexivity.
  - destruct (direct_step_moving (after_read w) Hmv) as (_ & _ & Hp & _).
    rewrite Hp. cbn [after_read axis]. unfold plan_after_step.
    rewrite Hlast, Z.eqb_refl. reflexivity.
Qed.

End LeadIn.

(** X17.  [LinearAxis_start_move] emits nothing, and neither does any
    tick whose reading of the clock is less than 100 µs after the reading
    that start_move took: such ticks return false and leave axis and
    trace as start_move left them.  The first tick that reads the clock
    100 µs or more after it fires and, on a plan that has steps, emits
    exactly one pulse. *)
Theorem first_pulse_waits_100us
  (env : Env) (w : World) (mv : LinearAxisMovement) (n : nat) :
  (forall j, (j < n)%nat ->
     clock env (S (clock_reads w) + j) < clock env (clock_reads w) + 100) ->
  trace (LinearAxis_start_move env w mv) = trace w
  /\ (forall j, (j < n)%nat ->
        fst (LinearAxis_timed_step env
               (timed_steps env j (LinearAxis_start_move env w mv))) = false)
  /\ axis (timed_steps env n (LinearAxis_start_move env w mv))
     = axis (LinearAxis_start_move env w mv)
  /\ trace (timed_steps env n (LinearAxis_start_move env w mv)) = trace w
  /\ (clock env (clock_reads w) + 100 <= clock env (S (clock_reads w) + n) ->
      total_step_count mv <> 0 ->
      fst (LinearAxis_timed_step env
             (timed_steps env n (LinearAxis_start_move env w mv))) = true
      /\ pulses (trace (snd (LinearAxis_timed_step env
                   (timed_steps env n (LinearAxis_start_move env w mv)))))
         = pulses (trace w) + 1).
Proof.
  intros Hearly.
  set (w0 := LinearAxis_start_move env w mv).
  assert (Hnext : _next_step_at (axis w0) = clock env (clock_reads w) + 100)
    by reflexivity.
  assert (Hreads : clock_reads w0 = S (clock_reads w)) by reflexivity.
  assert (Hrun : forall j, (j <= n)%nat ->
            timed_steps env j w0
            = mkWorld (axis w0) (S (clock_reads w) + j) (stall_polls w0)
                (pin_reads w0) (trace w0)).
  { intros j Hj. rewrite waiting_ticks.
    - rewrite Hreads. reflexivity.
    - intros i Hi. rewrite Hreads, Hnext. apply Hearly. lia. }
  split; [reflexivity|].
  split.
  { intros j Hj. rewrite (Hrun j) by lia.
    rewrite timed_step_fires. cbn [axis clock_reads].
    rewrite Hnext. apply Z.leb_gt. apply Hearly. exact Hj. }
  rewrite (Hrun n) by lia.
  split; [reflexivity|]. split; [reflexivity|].
  intros Hdue Hmv.
  split.
  - rewrite timed_step_fires. cbn [axis clock_reads].
    rewrite Hnext. apply Z.leb_le. exact Hdue.
  - rewrite timed_step_fire_pulse.
    + reflexivity.
    + cbn [axis clock_reads]. rewrite Hnext. exact Hdue.
    + exact Hmv.
Qed.

Lemma first_pulse_waits_100us_witness :
  let w0 := LinearAxis_start_move fine_env (world_of (scenario_axis 0))
              (scenario_plan 0) in
  trace (timed_steps fine_env 3 w0) = []
  /\ fst (LinearAxis_timed_step fine_env (timed_steps fine_env 3 w0)) = true
  /\ pulses (trace (snd (LinearAxis_timed_step fine_env
                           (timed_steps fine_env 3 w0)))) = 1.
Proof.
  intros w0.
  destruct (first_pulse_waits_100us fine_env (world_of (scenario_axis 0))
              (scenario_plan 0) 3) as (_ & _ & _ & Ht & Hfire).
  - intros j Hj. cbn [clock fine_env world_of clock_reads]. lia.
  - split; [exact Ht|]. apply Hfire.
    + cbn [clock fine_env world_of clock_reads]. lia.
    + cbn [scenario_plan total_step_count]. lia.
Defined.

(** X18.  A tick that fires on an axis idle on the zero plan, or that
    takes the last step of a move, leaves the zero plan and sets
    [_step_interval] to exactly 1000 µs, re-arming the deadline one
    millisecond after its second reading of the clock - whatever the
    configuration, steps_per_mm zero, infinite or NaN included. *)
Theorem finished_move_rearms_at_1ms (env : Env) (w : World) :
  _next_step_at (axis w) <= clock env (clock_reads w) ->
  _current_move (axis w) = zero_plan
  \/ (total_step_count (_current_move (axis w)) <> 0
      /\ Int.wrap32 (steps_taken (_current_move (axis w)) + 1)
         = total_step_count (_current_move (axis w))) ->
  fst (LinearAxis_timed_step env w) = true
  /\ _current_move (axis (snd (LinearAxis_timed_step env w))) = zero_plan
  /\ _step_interval (axis (snd (LinearAxis_timed_step env w))) = 1000
  /\ _next_step_at (axis (snd (LinearAxis_timed_step env w)))
     = clock env (S (clock_reads w)) + 1000.
Proof.
  intros Hdue Hend.
  pose proof (timed_step_fire_finishes env w Hdue Hend) as Hz.
  rewrite timed_step_fire by assumption.
  cbv zeta in Hz.
  set (w1 := with_axis (LinearAxis_calculate_step_interval env)
               (LinearAxis_direct_step (after_read w))) in *.
  assert (Hi : _step_interval (axis w1) = 1000).
  { unfold w1. cbn [with_axis axis]. apply idle_interval.
    unfold w1 in Hz. cbn [with_axis axis] in Hz.
    rewrite calculate_step_interval_move in Hz. exact Hz. }
  cbn [fst snd with_axis after_read axis].
  split; [reflexivity|].
  split; [exact Hz|].
  split; [exact Hi|].
  rewrite Hi. reflexivity.
Qed.

Lemma finished_move_rearms_at_1ms_witness :
  let w := mkWorld (set_current_move (scenario_plan 3999) (scenario_axis 3999))
             5 0 0 [] in
  _current_move (axis (snd (LinearAxis_timed_step bench_env w))) = zero_plan
  /\ _next_step_at (axis (snd (LinearAxis_timed_step bench_env w))) = 61000.
Proof.
  intros w.
  destruct (finished_move_rearms_at_1ms bench_env w) as (_ & Hz & _ & Hn).
  - cbn [w axis _next_step_at set_current_move scenario_axis clock bench_env
         clock_reads]. lia.
  - right. split; [cbn; lia | reflexivity].
  - split; [exact Hz | exact Hn].
Defined.
